(** * quiz_game.py: the quiz session engine, embedded and verified

    A shallow embedding of [src/quiz_game.py]: the answer validation of
    [run_quiz], the timed and untimed answer acquisition, the scoring, the
    leaderboard store ([load_scores], [save_score], [show_leaderboard]) and
    the session runner [run_quiz] itself, as a state-and-exception monad
    over the list objects, the score file, the keyboard and the terminal. *)

From Stdlib Require Import ZArith NArith Bool Ascii String List Floats Lia.
From Stdlib Require Import Sorting.Sorted Sorting.Permutation.
From stdpp Require Import gmap list strings sorting.

Import ListNotations.
Local Open Scope string_scope.
Local Open Scope list_scope.

(** ** Python strings

    A Python [str] is modelled by a Rocq [string] whose characters are the
    Unicode code points below 256 (Latin-1), one [ascii] per code point.
    The character classes below are CPython's on that range. *)

Module PyStr.

Definition ord (c : ascii) : N := N_of_ascii c.

Definition between (lo hi n : N) : bool := ((lo <=? n) && (n <=? hi))%N.

(** [str.isspace] on one character: TAB..CR, FS..US, space, NEL, NBSP. *)
Definition isspace_char (c : ascii) : bool :=
  between 9 13 (ord c) || between 28 32 (ord c)
  || (ord c =? 133)%N || (ord c =? 160)%N.

(** The characters [int] reads as digits (Numeric_Type=Decimal). *)
Definition isdecimal_char (c : ascii) : bool := between 48 57 (ord c).

(** [str.isdigit] on one character: the decimal digits and the superscript
    digits two, three and one (Numeric_Type=Digit). *)
Definition isdigit_char (c : ascii) : bool :=
  isdecimal_char c
  || (ord c =? 178)%N || (ord c =? 179)%N || (ord c =? 185)%N.

(** [str.lower] on one character: A..Z and the Latin-1 capitals
    U+00C0..U+00DE except the multiplication sign U+00D7. *)
Definition lower_char (c : ascii) : ascii :=
  if between 65 90 (ord c)
     || (between 192 222 (ord c) && negb (ord c =? 215)%N)
  then ascii_of_N (ord c + 32)
  else c.

Fixpoint lower (s : string) : string :=
  match s with
  | EmptyString => EmptyString
  | String c s' => String (lower_char c) (lower s')
  end.

Fixpoint all_chars (p : ascii -> bool) (s : string) : bool :=
  match s with
  | EmptyString => true
  | String c s' => p c && all_chars p s'
  end.

(** Truthiness of a [str]: the empty string is falsy. *)
Definition truthy (s : string) : bool :=
  match s with EmptyString => false | String _ _ => true end.

(** [s.isdigit()]: at least one character and every character a digit. *)
Definition isdigit (s : string) : bool := truthy s && all_chars isdigit_char s.

Fixpoint lstrip (s : string) : string :=
  match s with
  | EmptyString => EmptyString
  | String c s' => if isspace_char c then lstrip s' else s
  end.

Fixpoint rstrip (s : string) : string :=
  match s with
  | EmptyString => EmptyString
  | String c s' =>
      match rstrip s' with
      | EmptyString => if isspace_char c then EmptyString else String c EmptyString
      | r => String c r
      end
  end.

(** [s.strip()]: leading and trailing whitespace removed. *)
Definition strip (s : string) : string := rstrip (lstrip s).

Definition digit_value (c : ascii) : Z := Z.of_N (ord c) - 48.

Fixpoint decimal_value (acc : Z) (s : string) : Z :=
  match s with
  | EmptyString => acc
  | String c s' => decimal_value (10 * acc + digit_value c) s'
  end.

(** [int(s)] for a string [s] that passed [isdigit], the only strings the
    program gives it: the base-10 value when every character is a decimal
    digit, and [None] for the [ValueError] that a superscript digit raises.
    (CPython's limit on the number of digits of the literal is not
    modelled.) *)
Definition int (s : string) : option Z :=
  if truthy s && all_chars isdecimal_char s
  then Some (decimal_value 0 s)
  else None.

End PyStr.

(** ** Exceptions and outcomes *)

Inductive exn : Type :=
| ValueError
| IndexError
| EOFError
| OSError
| ZeroDivisionError.

Inductive outcome (A : Type) : Type :=
| Ok (a : A)
| Raise (e : exn).

Arguments Ok {A} a.
Arguments Raise {A} e.

(** ** Answer validation ([run_quiz], lines 189-204) *)

(** The [for ch in choices] loop of the text fallback, with its [break]:
    [chosen] and [correct] are the loop-carried variables [chosen_text] and
    [correct]. *)
Fixpoint text_match (user_choice_text answer : string) (choices : list string)
    (chosen : option string) (correct : bool) : option string * bool :=
  match choices with
  | [] => (chosen, correct)
  | ch :: rest =>
      if String.eqb (PyStr.lower ch) user_choice_text
      then (Some ch, String.eqb ch answer)
      else text_match user_choice_text answer rest chosen correct
  end.

(** The validation block: [user_choice] is [None] after a timeout and the
    stripped input otherwise; the result is [(chosen_text, correct)]. *)
Definition resolve (user_choice : option string) (choices : list string)
    (answer : string) : outcome (option string * bool) :=
  let chosen_text : option string := None in
  let correct := false in
  match user_choice with
  | None => Ok (chosen_text, correct)
  | Some u =>
      if PyStr.truthy u && PyStr.isdigit u then
        match PyStr.int u with
        | None => Raise ValueError
        | Some k =>
            let idx := (k - 1)%Z in
            if ((0 <=? idx) && (idx <? Z.of_nat (length choices)))%Z then
              match choices !! Z.to_nat idx with
              | Some ch => Ok (Some ch, String.eqb ch answer)
              | None => Raise IndexError
              end
            else Ok (chosen_text, correct)
        end
      else if PyStr.truthy u then
        Ok (text_match (PyStr.lower u) answer choices chosen_text correct)
      else Ok (chosen_text, correct)
  end.

(** ** The data of a session *)

(** Address of a list object holding strings (a question's ["choices"]). *)
Definition loc : Type := nat.

(** A question dict of [QUESTIONS]. Its ["choices"] value is a reference to
    a list object: [q.copy()] is shallow, so a copied dict shares it. *)
Record Question : Type := {
  q : string;
  choices : loc;
  answer : string;
  difficulty : string
}.

(** One dict of the detail log. ["your"] is what the source stores there:
    [chosen_text] as it is on a correct answer ([None] would be stored as
    such), a string on an incorrect one. *)
Record Detail : Type := {
  question : string;
  your : option string;
  correct : string;
  result : string
}.

(** The dict [run_quiz] builds and [save_score] persists. *)
Record Entry : Type := {
  user : string;
  score : Z;
  total : Z;
  percentage : float;
  timestamp : string;
  details : list Detail
}.

(** [quiz_scores.json] as [load_scores] sees it: absent, unreadable or not
    JSON, or the document that earlier [save_score] calls wrote (json.load
    gives back what json.dump was given: strings, ints, floats, lists and
    dicts with string keys). *)
Inductive file_state : Type :=
| Missing
| Corrupt
| Stored (data : list Entry).

(** What happens when [save_score] opens the file for writing and dumps. *)
Inductive disk_mode : Type :=
| Writable
| OpenFails     (* open(..., "w") raises OSError; the file is untouched *)
| WriteFails.   (* opened and truncated; the dump raises OSError part-way *)

(** A line the user types, [delay] seconds after the program starts to
    wait for it. *)
Record keystroke : Type := {
  text : string;
  delay : nat
}.

(** What the program prints, one constructor per [print] (or prompt). *)
Inductive event : Type :=
| NoQuestionsMatch                                   (* line 154 *)
| Starting (user : string) (total : Z) (timed : bool) (* line 165 *)
| QuestionHeader (i total : Z) (text : string)       (* line 172 *)
| ChoiceLine (idx : Z) (ch : string)                 (* line 174 *)
| Prompt (n : Z)                                     (* line 177 *)
| TimesUp                                            (* line 113 *)
| CorrectMsg                                         (* line 207 *)
| IncorrectMsg (answer : string)                     (* line 211 *)
| QuizCompleted                                      (* line 219 *)
| ScoreLine (score total : Z)                        (* line 220 *)
| PercentageLine (p : float)                         (* line 221 *)
| AccuracyLine (a : float)                           (* line 223 *)
| ResultSaved                                        (* line 235 *)
| NoPreviousResults                                  (* line 140 *)
| LeaderboardHeader (n : Z)                          (* line 143 *)
| LeaderboardRow (i : Z) (e : Entry) (time_str : string). (* line 146 *)

(** The mutable world of a run. *)
Record state : Type := {
  heap : gmap loc (list string);   (* the list objects *)
  scores_file : file_state;        (* quiz_scores.json *)
  disk : disk_mode;
  stdin : list keystroke;          (* what the user is yet to type *)
  draws : nat;                     (* random numbers drawn so far *)
  stdout : list event              (* printed so far, oldest first *)
}.

Definition set_heap (h : gmap loc (list string)) (st : state) : state :=
  {| heap := h; scores_file := scores_file st; disk := disk st;
     stdin := stdin st; draws := draws st; stdout := stdout st |}.

Definition set_scores_file (f : file_state) (st : state) : state :=
  {| heap := heap st; scores_file := f; disk := disk st;
     stdin := stdin st; draws := draws st; stdout := stdout st |}.

Definition set_stdin (k : list keystroke) (st : state) : state :=
  {| heap := heap st; scores_file := scores_file st; disk := disk st;
     stdin := k; draws := draws st; stdout := stdout st |}.

Definition set_draws (n : nat) (st : state) : state :=
  {| heap := heap st; scores_file := scores_file st; disk := disk st;
     stdin := stdin st; draws := n; stdout := stdout st |}.

Definition set_stdout (o : list event) (st : state) : state :=
  {| heap := heap st; scores_file := scores_file st; disk := disk st;
     stdin := stdin st; draws := draws st; stdout := o |}.

(** ** The monad of the program: state, and exceptions that keep it *)

Definition M (A : Type) : Type := state -> outcome A * state.

Definition ret {A : Type} (a : A) : M A := fun st => (Ok a, st).

Definition bind {A B : Type} (m : M A) (k : A -> M B) : M B :=
  fun st =>
    match m st with
    | (Ok a, st') => k a st'
    | (Raise e, st') => (Raise e, st')
    end.

Declare Scope py_scope.
Delimit Scope py_scope with py.
Notation "x <- m ;; k" := (bind m (fun x => k))
  (at level 100, m at next level, right associativity) : py_scope.
Notation "m ;; k" := (bind m (fun _ => k))
  (at level 100, right associativity) : py_scope.
Local Open Scope py_scope.

Definition lift {A : Type} (r : outcome A) : M A := fun st => (r, st).

Definition print (e : event) : M unit :=
  fun st => (Ok tt, set_stdout (stdout st ++ [e]) st).

Fixpoint print_all (es : list event) : M unit :=
  match es with
  | [] => ret tt
  | e :: es' => print e ;; print_all es'
  end.

(** ** Python lists, numbers and sorting *)

Definition len {A : Type} (l : list A) : Z := Z.of_nat (length l).

(** [l[:n]]: a negative bound counts from the end. *)
Definition slice_to {A : Type} (n : Z) (l : list A) : list A :=
  if (n <? 0)%Z then take (length l - Z.to_nat (- n)) l
  else take (Z.to_nat n) l.

(** [enumerate(l, start=i)]. *)
Fixpoint enumerate {A : Type} (i : Z) (l : list A) : list (Z * A) :=
  match l with
  | [] => []
  | x :: l' => (i, x) :: enumerate (i + 1) l'
  end.

(** [float(z)] for an int; exact below 2^53 in magnitude, as every count
    of this program is. *)
Definition float_of_int (z : Z) : float :=
  if (z <? 0)%Z then PrimFloat.opp (PrimFloat.of_uint63 (Uint63.of_Z (- z)))
  else PrimFloat.of_uint63 (Uint63.of_Z z).

(** [a / b] on ints: [ZeroDivisionError] on a zero divisor, and otherwise
    the correctly rounded quotient, which below 2^53 is the quotient of the
    two floats. *)
Definition truediv (a b : Z) : outcome float :=
  if (b =? 0)%Z then Raise ZeroDivisionError
  else Ok (PrimFloat.div (float_of_int a) (float_of_int b)).

Definition hundred : float := float_of_int 100.

Section PySorted.
Context {A K : Type}.
Variable key : A -> K.
Variable lt : K -> K -> bool.

(** Insertion before the first element that is not smaller: elements
    with equal keys stay behind the ones inserted after them. *)
Fixpoint insert_sorted (x : A) (l : list A) : list A :=
  match l with
  | [] => [x]
  | y :: l' => if lt (key y) (key x) then y :: insert_sorted x l' else x :: y :: l'
  end.

(** A stable ascending sort that compares keys with [<] only, as
    [list.sort] does. *)
Fixpoint stable_sort (l : list A) : list A :=
  match l with
  | [] => []
  | x :: l' => insert_sorted x (stable_sort l')
  end.

(** [sorted(l, key=key, reverse=True)]: CPython reverses the list, sorts
    it stably in ascending order and reverses the result. *)
Definition sorted_reverse (l : list A) : list A := rev (stable_sort (rev l)).
End PySorted.

(** ** [random.shuffle] *)

(** [x[i], x[j] = x[j], x[i]]. *)
Definition swap {A : Type} (x : list A) (i j : nat) : list A :=
  match x !! i, x !! j with
  | Some a, Some b => <[j := a]> (<[i := b]> x)
  | _, _ => x
  end.

Section Engine.

(** [platform.system() == "Windows"]. *)
Variable windows : bool.
(** The random source: the value of the [n]-th draw, reduced below the
    bound by [randbelow]. *)
Variable entropy : nat -> nat.
(** [datetime.datetime.now().isoformat()] at the end of the session. *)
Variable now : string.
(** The question bank. *)
Variable QUESTIONS : list Question.

(** [for i in reversed(range(1, len(x))): j = randbelow(i + 1); swap]:
    [i] is the index to visit next, down to 1, and [n] the draw count. *)
Fixpoint shuffle_from {A : Type} (i : nat) (x : list A) (n : nat) : list A * nat :=
  match i with
  | O => (x, n)
  | S i' => shuffle_from i' (swap x i (entropy n mod (i + 1))) (S n)
  end.

(** [random.shuffle] on a list no one else refers to. *)
Definition shuffle {A : Type} (x : list A) : M (list A) :=
  fun st =>
    let '(x', n) := shuffle_from (length x - 1) x (draws st) in
    (Ok x', set_draws n st).

(** The list object at [l]; an address that holds nothing reads empty. *)
Definition deref (l : loc) : M (list string) :=
  fun st => (Ok (default [] (heap st !! l)), st).

(** [x.copy()] on a list object: a new object with the same items. *)
Definition list_copy (l : loc) : M loc :=
  fun st =>
    let l' := fresh (dom (heap st)) in
    (Ok l', set_heap (<[l' := default [] (heap st !! l)]> (heap st)) st).

(** [random.shuffle(x)] on the list object at [l], in place. *)
Definition shuffle_at (l : loc) : M unit :=
  fun st =>
    let '(x', n) := shuffle_from (length (default [] (heap st !! l)) - 1)
                      (default [] (heap st !! l)) (draws st) in
    (Ok tt, set_draws n (set_heap (<[l := x']> (heap st)) st)).

(** ** Input *)

(** [input(prompt)]: the next line typed, however late; [EOFError] when
    there is none (the keyboard is closed). *)
Definition input (n : Z) : M string :=
  print (Prompt n) ;;
  fun st =>
    match stdin st with
    | [] => (Raise EOFError, st)
    | k :: rest => (Ok (text k), set_stdin rest st)
    end.

(** [timed_input(prompt, timeout)] (lines 92-116). [signal.alarm(0)] sets
    no alarm. When the alarm fires first the line is still to come,
    [timeout] seconds sooner. *)
Definition timed_input (n : Z) (timeout : nat) : M (option string) :=
  if windows then
    val <- input n ;; ret (Some val)
  else
    print (Prompt n) ;;
    k <- (fun st => match stdin st with
                    | [] => (Raise EOFError, st)
                    | k :: _ => (Ok k, st)
                    end) ;;
    if (timeout =? 0)%nat || (delay k <? timeout)%nat then
      (fun st => (Ok (Some (text k)), set_stdin (tail (stdin st)) st))
    else
      (fun st =>
         (Ok tt, set_stdin ({| text := text k; delay := delay k - timeout |}
                            :: tail (stdin st)) st)) ;;
      print TimesUp ;;
      ret None.

(** ** Persistence (lines 120-146) *)

Definition load_scores : M (list Entry) :=
  fun st =>
    match scores_file st with
    | Stored data => (Ok data, st)
    | Corrupt => (Ok [], st)
    | Missing => (Ok [], st)
    end.

Definition save_score (entry : Entry) : M unit :=
  data <- load_scores ;;
  let data := data ++ [entry] in
  fun st =>
    match disk st with
    | Writable => (Ok tt, set_scores_file (Stored data) st)
    | OpenFails => (Raise OSError, st)
    | WriteFails => (Raise OSError, set_scores_file Corrupt st)
    end.

(** [data_sorted[:top_n]] of [show_leaderboard]: the rows it prints. *)
Definition top_rows (top_n : Z) (data : list Entry) : list Entry :=
  slice_to top_n (sorted_reverse percentage PrimFloat.ltb data).

Definition show_leaderboard (top_n : Z) : M unit :=
  data <- load_scores ;;
  match data with
  | [] => print NoPreviousResults
  | _ :: _ =>
      let data_sorted := sorted_reverse percentage PrimFloat.ltb data in
      print (LeaderboardHeader (Z.min top_n (len data_sorted))) ;;
      print_all (map (fun '(i, e) => LeaderboardRow i e (timestamp e))
                     (enumerate 1 (slice_to top_n data_sorted)))
  end.

(** ** The session ([run_quiz], lines 150-236) *)

(** The filter of line 152: [difficulty == "all" or
    q.get("difficulty") == difficulty]. *)
Definition matches_difficulty (wanted : string) (qu : Question) : bool :=
  String.eqb wanted "all" || String.eqb (difficulty qu) wanted.

(** Lines 176-186: the answer as typed, stripped; [None] on a timeout. *)
Definition get_answer (timed : bool) (per_question_time : nat) (n : Z)
    : M (option string) :=
  if timed then
    ans <- timed_input n per_question_time ;;
    match ans with
    | None => ret None
    | Some a => ret (Some (PyStr.strip a))
    end
  else
    a <- input n ;; ret (Some (PyStr.strip a)).

(** Truthiness of [chosen_text]: [None] and the empty string are falsy. *)
Definition chosen_or_default (chosen_text : option string) : string :=
  match chosen_text with
  | Some s => if PyStr.truthy s then s else "No valid answer"
  | None => "No valid answer"
  end.

(** Lines 206-212: the verdict is printed, counted and logged. *)
Definition record_outcome (qu : Question) (chosen_text : option string)
    (correct : bool) (score : Z) (details : list Detail) : M (Z * list Detail) :=
  if correct then
    print CorrectMsg ;;
    ret ((score + 1)%Z,
         details ++ [ {| question := q qu; your := chosen_text;
                         correct := answer qu; result := "correct" |} ])
  else
    print (IncorrectMsg (answer qu)) ;;
    ret (score,
         details ++ [ {| question := q qu;
                         your := Some (chosen_or_default chosen_text);
                         correct := answer qu; result := "incorrect" |} ]).

(** Lines 167-215: [for i, q in enumerate(pool, start=1)], carrying
    [score] and [details]. ([time.sleep] has no effect here.) *)
Fixpoint quiz_loop (timed : bool) (per_question_time : nat) (total i : Z)
    (pool : list Question) (score : Z) (details : list Detail)
    : M (Z * list Detail) :=
  match pool with
  | [] => ret (score, details)
  | qu :: pool' =>
      l <- list_copy (choices qu) ;;
      shuffle_at l ;;
      chs <- deref l ;;
      print (QuestionHeader i total (q qu)) ;;
      print_all (map (fun '(idx, ch) => ChoiceLine idx ch) (enumerate 1 chs)) ;;
      user_choice <- get_answer timed per_question_time (len chs) ;;
      r <- lift (resolve user_choice chs (answer qu)) ;;
      sd <- record_outcome qu (fst r) (snd r) score details ;;
      quiz_loop timed per_question_time total (i + 1) pool' (fst sd) (snd sd)
  end.

(** [sum(1 for d in details if d["result"] == "correct")]. *)
Definition count_correct (details : list Detail) : Z :=
  len (List.filter (fun d => String.eqb (result d) "correct") details).

(** Line 217. *)
Definition percentage_of (score total : Z) : outcome float :=
  if (total =? 0)%Z then Ok (float_of_int 0)
  else match truediv score total with
       | Ok x => Ok (PrimFloat.mul x hundred)
       | Raise e => Raise e
       end.

(** Line 222. *)
Definition accuracy_of (details : list Detail) (total : Z) : outcome float :=
  match truediv (count_correct details) total with
  | Ok x => Ok (PrimFloat.mul x hundred)
  | Raise e => Raise e
  end.

(** Lines 150-233: the session up to the entry it is about to save;
    [None] is the early return of line 155. *)
Definition play_quiz (user wanted : string) (timed : bool)
    (per_question_time : nat) (num_questions : option Z) : M (option Entry) :=
  let pool := List.filter (matches_difficulty wanted) QUESTIONS in
  match pool with
  | [] => print NoQuestionsMatch ;; ret None
  | _ :: _ =>
      pool <- shuffle pool ;;
      let pool :=
        match num_questions with
        | Some n => if (n =? 0)%Z then pool else slice_to n pool
        | None => pool
        end in
      let total := len pool in
      print (Starting user total timed) ;;
      sd <- quiz_loop timed per_question_time total 1 pool 0%Z [] ;;
      let score := fst sd in
      let details := snd sd in
      percentage <- lift (percentage_of score total) ;;
      print QuizCompleted ;;
      print (ScoreLine score total) ;;
      print (PercentageLine percentage) ;;
      accuracy <- lift (accuracy_of details total) ;;
      print (AccuracyLine accuracy) ;;
      ret (Some {| user := user; score := score; total := total;
                   percentage := percentage; timestamp := now;
                   details := details |})
  end.

(** [run_quiz]: the session, then lines 234-236. *)
Definition run_quiz (user wanted : string) (timed : bool)
    (per_question_time : nat) (num_questions : option Z) : M (option Entry) :=
  r <- play_quiz user wanted timed per_question_time num_questions ;;
  match r with
  | None => ret None
  | Some entry =>
      save_score entry ;;
      print ResultSaved ;;
      ret (Some entry)
  end.

End Engine.

(** ** The sample question bank (lines 34-89) *)

(** The ["choices"] lists, in the order of [QUESTIONS]; the list of the
    [n]-th question lives at address [n]. *)
Definition sample_choices : list (list string) :=
  [ ["Central Processing Unit"; "Computer Primary Unit"; "Central Power Unit";
     "Control Processing Unit"];
    ["Graphics Processing Unit"; "General Processing Unit"; "Graphical Program Unit";
     "Global Processing Unit"];
    ["Random Access Memory"; "Readily Available Memory"; "Random Active Memory";
     "Rapid Access Memory"];
    ["Bubble sort"; "Selection sort"; "Merge sort"; "Insertion sort"];
    ["I/O performance only";
     "Ability to use multiple cores for CPU-bound Python bytecode";
     "Memory allocation"; "Garbage collection timing"];
    ["PostgreSQL"; "MySQL"; "MongoDB"; "SQLite"];
    ["Virtual machines with full OS";
     "Containerization for lightweight, portable runtime environments";
     "A new programming language"; "A database engine"];
    ["Convolutional Neural Network (CNN)"; "Recurrent Neural Network (RNN)";
     "K-Means"; "PCA"];
    ["O(n)"; "O(n log n)"; "O(n^2)"; "O(log n)"] ].

Definition sample_heap : gmap loc (list string) :=
  list_to_map (imap (fun n chs => (n, chs)) sample_choices).

Definition sample_QUESTIONS : list Question :=
  [ {| q := "What does CPU stand for?"; choices := 0;
       answer := "Central Processing Unit"; difficulty := "easy" |};
    {| q := "What does GPU stand for?"; choices := 1;
       answer := "Graphics Processing Unit"; difficulty := "easy" |};
    {| q := "What does RAM stand for?"; choices := 2;
       answer := "Random Access Memory"; difficulty := "easy" |};
    {| q := "Which sorting algorithm has average time complexity O(n log n) and is often used for large datasets?";
       choices := 3; answer := "Merge sort"; difficulty := "medium" |};
    {| q := "In Python, what does GIL (Global Interpreter Lock) affect?";
       choices := 4;
       answer := "Ability to use multiple cores for CPU-bound Python bytecode";
       difficulty := "medium" |};
    {| q := "Which of the following is a non-relational (NoSQL) database?";
       choices := 5; answer := "MongoDB"; difficulty := "easy" |};
    {| q := "What is the main idea behind Docker?"; choices := 6;
       answer := "Containerization for lightweight, portable runtime environments";
       difficulty := "medium" |};
    {| q := "Which neural network architecture is best suited for sequence data like time series or text?";
       choices := 7; answer := "Recurrent Neural Network (RNN)"; difficulty := "hard" |};
    {| q := "Which Big O gives worst-case time complexity for QuickSort?";
       choices := 8; answer := "O(n^2)"; difficulty := "hard" |} ].

(** A first run on a machine with no score file: the bank in memory,
    [kb] still to be typed, nothing printed. *)
Definition fresh_state (d : disk_mode) (kb : list keystroke) : state :=
  {| heap := sample_heap; scores_file := Missing; disk := d;
     stdin := kb; draws := 0; stdout := [] |}.

(** A record as a session of [t] questions with [s] right answers leaves
    it, without its details. *)
Definition sample_entry (u : string) (s t : Z) : Entry :=
  {| user := u; score := s; total := t;
     percentage := PrimFloat.mul (PrimFloat.div (float_of_int s) (float_of_int t)) hundred;
     timestamp := "2026-01-01T00:00:00"; details := [] |}.

(** A machine whose score file holds [data]. *)
Definition stored_state (data : list Entry) : state :=
  {| heap := sample_heap; scores_file := Stored data; disk := Writable;
     stdin := []; draws := 0; stdout := [] |}.

(** A user who types each line at once. *)
Definition typing (lines : list string) : list keystroke :=
  map (fun s => {| text := s; delay := 0 |}) lines.

(** A session on the sample bank, off Windows, with a random source that
    always draws its bound's remainder of the draw number. *)
Definition sample_run (d : disk_mode) (wanted : string) (timed : bool)
    (num_questions : option Z) (kb : list keystroke) : outcome (option Entry) * state :=
  run_quiz false (fun n => n) "2026-01-01T00:00:00" sample_QUESTIONS
    "ann" wanted timed 15 num_questions (fresh_state d kb).

(** ** The resolver as the specification words it *)

(** The first option, in presentation order, that equals the input when
    both are lower-cased. *)
Definition first_match (u : string) (options : list string) : option string :=
  List.find (fun ch => String.eqb (PyStr.lower ch) (PyStr.lower u)) options.

(** The outcome of the text fallback: the first match and whether it is
    the correct text, or no choice. *)
Definition text_fallback (u : string) (options : list string) (correctText : string)
    : option string * bool :=
  match first_match u options with
  | Some ch => (Some ch, String.eqb ch correctText)
  | None => (None, false)
  end.

(** The three steps of the specification's resolver: empty input; a
    number within [1..len]; otherwise (not a number, or a number out of
    range) the text fallback. *)
Definition spec_resolve (rawInput : option string) (options : list string)
    (correctText : string) : option string * bool :=
  match rawInput with
  | None => (None, false)
  | Some u =>
      if negb (PyStr.truthy u) then (None, false)
      else
        match (if PyStr.isdigit u then PyStr.int u else None) with
        | Some k =>
            if ((1 <=? k) && (k <=? len options))%Z then
              match options !! Z.to_nat (k - 1) with
              | Some ch => (Some ch, String.eqb ch correctText)
              | None => (None, false)
              end
            else text_fallback u options correctText
        | None => text_fallback u options correctText
        end
  end.

(** ** Relations between runs, padding, and the order of the leaderboard *)

(** [steps R m]: every run of [m], normal or exceptional, takes a state to
    an [R]-related one. *)
Definition steps (R : state -> state -> Prop) {A : Type} (m : M A) : Prop :=
  forall st, R st (snd (m st)).

(** What a session may do to the world before it saves: allocate list
    objects and print. Every list object that exists keeps its items, the
    score file and the disk are as they were, and the terminal only
    grows. *)
Definition evolves (st st' : state) : Prop :=
  (forall l, is_Some (heap st !! l) -> heap st' !! l = heap st !! l)
  /\ scores_file st' = scores_file st
  /\ disk st' = disk st
  /\ exists out, stdout st' = stdout st ++ out.

Definition whitespace (s : string) : bool := PyStr.all_chars PyStr.isspace_char s.

(** The line [k] with [pre] typed before its text and [post] after. *)
Definition pad (pre post : string) (k : keystroke) : keystroke :=
  {| text := (pre ++ text k ++ post)%string; delay := delay k |}.

(** Two lines typed at the same moment whose texts strip to the same. *)
Definition same_stripped (k k' : keystroke) : Prop :=
  delay k' = delay k /\ PyStr.strip (text k') = PyStr.strip (text k).

(** Two worlds that differ at most in the whitespace around the lines
    still to be typed. *)
Definition same_but_padding (st st' : state) : Prop :=
  heap st' = heap st /\ scores_file st' = scores_file st /\ disk st' = disk st
  /\ draws st' = draws st /\ stdout st' = stdout st
  /\ Forall2 same_stripped (stdin st) (stdin st').

(** [m] cannot tell such worlds apart. *)
Definition blind_to_padding {A : Type} (m : M A) : Prop :=
  forall st st', same_but_padding st st' ->
    fst (m st') = fst (m st) /\ same_but_padding (snd (m st)) (snd (m st')).

(** Lines 176-204 for one question: the answer is acquired, then
    validated against the options shown. *)
Definition answer_question (windows timed : bool) (per_question_time : nat)
    (chs : list string) (ans : string) : M (option string * bool) :=
  bind (get_answer windows timed per_question_time (len chs))
       (fun user_choice => lift (resolve user_choice chs ans)).

(** [kb'] is [kb] with whitespace typed around some of its lines. *)
Definition padded (kb kb' : list keystroke) : Prop :=
  Forall2 (fun k k' => exists pre post,
             whitespace pre = true /\ whitespace post = true /\ k' = pad pre post k)
          kb kb'.

(** [x == x]: every float but NaN. *)
Definition ordered (x : float) : Prop := PrimFloat.eqb x x = true.

(** A non-NaN float as a point of the lexicographic order on triples:
    class and sign first, then exponent, then mantissa. *)
Definition sf_rank (f : spec_float) : Z * Z * Z :=
  match f with
  | S754_zero _ => (0, 0, 0)%Z
  | S754_infinity true => (-2, 0, 0)%Z
  | S754_infinity false => (2, 0, 0)%Z
  | S754_nan => (0, 0, 0)%Z
  | S754_finite false m e => (1, e, Z.pos m)%Z
  | S754_finite true m e => (-1, - e, Z.neg m)%Z
  end.

Definition lex_lt (a b : Z * Z * Z) : Prop :=
  (a.1.1 < b.1.1
   \/ (a.1.1 = b.1.1 /\ (a.1.2 < b.1.2 \/ (a.1.2 = b.1.2 /\ a.2 < b.2))))%Z.

(** [a] is tied with the key [k]: neither is smaller. *)
Definition tied {A K : Type} (key : A -> K) (lt : K -> K -> bool) (k : K) (a : A) : bool :=
  negb (lt k (key a)) && negb (lt (key a) k).

(** No element is followed, anywhere later, by one with a larger key. *)
Definition descending {A K : Type} (key : A -> K) (lt : K -> K -> bool) (l : list A) : Prop :=
  StronglySorted (fun a b => lt (key a) (key b) = false) l.

(** The four records of the specification's example, in insertion order,
    with percentages 50, 90, 90 and 30. *)
Definition example_board : list Entry :=
  [ sample_entry "first" 50 100; sample_entry "second" 90 100;
    sample_entry "third" 90 100; sample_entry "fourth" 30 100 ].

(** ** What a session logs *)

(** The detail [d] is a faithful log of the question [qu]: it names the
    question and its answer, and either is marked correct and holds the
    answer as the user's, or is marked incorrect and holds a text that is
    not empty. *)
Definition logged (qu : Question) (d : Detail) : Prop :=
  question d = q qu
  /\ correct d = answer qu
  /\ ((result d = "correct" /\ your d = Some (answer qu))
      \/ (result d = "incorrect" /\ exists s, your d = Some s /\ PyStr.truthy s = true)).


(** The number of questions a session asks, from the number [m] of
    questions of the requested difficulty and the count asked for. *)
Definition expected_total (m : Z) (num_questions : option Z) : Z :=
  match num_questions with
  | None => m
  | Some n => if (n =? 0)%Z then m else if (n <? 0)%Z then (m + n)%Z else Z.min n m
  end.




(** ** Saving several records *)

(** [save_score] called once for each record of [es], in order, as
    successive sessions do. *)
Fixpoint save_each (es : list Entry) : M unit :=
  match es with
  | [] => ret tt
  | e :: es' => bind (save_score e) (fun _ => save_each es')
  end.

(** ** The interactive launcher ([main], lines 240-283) *)

(** What [main] itself prints: its lines and the prompts of its [input]
    calls. *)
Inductive glue : Type :=
| Welcome                      (* line 241 *)
| AskName                      (* line 243 *)
| DifficultyMenu               (* line 246 *)
| AskDifficulty                (* line 247 *)
| AskTimed                     (* line 252 *)
| AskSeconds (default : Z)     (* line 257 *)
| TimedUnsupported             (* line 261 *)
| AskHowMany (max_q : Z)       (* line 265 *)
| AskLeaderboardBefore         (* line 271 *)
| AskLeaderboardAfter          (* line 279 *)
| Thanks.                      (* line 283 *)

(** A line of the terminal: printed by [main], or by the functions it
    calls. *)
Inductive line : Type :=
| Glue (g : glue)
| Engine (e : event).

(** The world as [main] sees it: the world of the engine, and the whole
    terminal in the order printed. *)
Record console : Type := {
  world : state;
  screen : list line
}.

Definition G (A : Type) : Type := console -> outcome A * console.

Definition gret {A : Type} (a : A) : G A := fun c => (Ok a, c).

Definition graise {A : Type} (e : exn) : G A := fun c => (Raise e, c).

Definition gbind {A B : Type} (m : G A) (k : A -> G B) : G B :=
  fun c =>
    match m c with
    | (Ok a, c') => k a c'
    | (Raise e, c') => (Raise e, c')
    end.

Declare Scope launcher_scope.
Delimit Scope launcher_scope with launcher.
Notation "x <- m ;; k" := (gbind m (fun x => k))
  (at level 100, m at next level, right associativity) : launcher_scope.
Notation "m ;; k" := (gbind m (fun _ => k))
  (at level 100, right associativity) : launcher_scope.

(** [print] in [main]. *)
Definition say (g : glue) : G unit :=
  fun c => (Ok tt, {| world := world c; screen := screen c ++ [Glue g] |}).

(** [input(prompt)] in [main]: the prompt, then the next line typed;
    [EOFError] when the keyboard is closed. *)
Definition ask (g : glue) : G string :=
  fun c =>
    match stdin (world c) with
    | [] => (Raise EOFError, {| world := world c; screen := screen c ++ [Glue g] |})
    | k :: rest =>
        (Ok (text k),
         {| world := set_stdin rest (world c); screen := screen c ++ [Glue g] |})
    end.

(** A call from [main] into the engine: what the call prints goes to the
    terminal after what is there. *)
Definition engine {A : Type} (m : M A) : G A :=
  fun c =>
    let '(r, w) := m (world c) in
    (r, {| world := w;
           screen := screen c
                     ++ map Engine (drop (length (stdout (world c))) (stdout w)) |}).

(** [diff_map.get(diff_choice, "all")] (lines 248-249). *)
Definition diff_map (diff_choice : string) : string :=
  if String.eqb diff_choice "1" then "easy"
  else if String.eqb diff_choice "2" then "medium"
  else if String.eqb diff_choice "3" then "hard"
  else if String.eqb diff_choice "4" then "all"
  else "all".

(** The locals of [main] that [run_quiz] is called with. *)
Record preferences : Type := {
  p_user : string;
  p_difficulty : string;
  p_timed : bool;
  p_per_q_time : Z;
  p_num_q : option Z
}.

Section Launcher.

Variable windows : bool.
Variable entropy : nat -> nat.
Variable now : string.
Variable QUESTIONS : list Question.

Local Open Scope launcher_scope.

(** Lines 241-268: the questions [main] asks before the session. *)
Definition read_preferences : G preferences :=
  say Welcome ;;
  name <- ask AskName ;;
  let user := if PyStr.truthy (PyStr.strip name) then PyStr.strip name else "Anonymous" in
  say DifficultyMenu ;;
  diff_choice <- ask AskDifficulty ;;
  let difficulty := diff_map (PyStr.strip diff_choice) in
  tm <- ask AskTimed ;;
  let timed := String.eqb (PyStr.lower (PyStr.strip tm)) "y" in
  per_q_time <-
    (if timed && negb windows then
       tval <- ask (AskSeconds 15) ;;
       if PyStr.isdigit (PyStr.strip tval) then
         match PyStr.int (PyStr.strip tval) with
         | Some v => gret (Z.max 3 v)
         | None => graise ValueError
         end
       else gret 15%Z
     else if timed && windows then
       say TimedUnsupported ;; gret 15%Z
     else gret 15%Z) ;;
  let max_q := len (List.filter (matches_difficulty difficulty) QUESTIONS) in
  nq <- ask (AskHowMany max_q) ;;
  num_q <-
    (if PyStr.isdigit (PyStr.strip nq) then
       match PyStr.int (PyStr.strip nq) with
       | Some v => gret (Some (Z.min v max_q))
       | None => graise ValueError
       end
     else gret None) ;;
  gret {| p_user := user; p_difficulty := difficulty; p_timed := timed;
          p_per_q_time := per_q_time; p_num_q := num_q |}.

(** Lines 271-273 and 279-281: the leaderboard, on a [y]. *)
Definition leaderboard_on_yes (g : glue) : G unit :=
  lb <- ask g ;;
  if String.eqb (PyStr.lower (PyStr.strip lb)) "y"
  then engine (show_leaderboard 5)
  else gret tt.

Definition main : G unit :=
  p <- read_preferences ;;
  leaderboard_on_yes AskLeaderboardBefore ;;
  engine (run_quiz windows entropy now QUESTIONS (p_user p) (p_difficulty p)
            (p_timed p && negb windows) (Z.to_nat (p_per_q_time p)) (p_num_q p)) ;;
  leaderboard_on_yes AskLeaderboardAfter ;;
  say Thanks.

End Launcher.

(** [main] on the sample bank, off Windows, on a machine with no score
    file, with [lines] typed at once. *)
Definition sample_main (lines : list string) : outcome unit * console :=
  main false (fun n => n) "2026-01-01T00:00:00" sample_QUESTIONS
    {| world := fresh_state Writable (typing lines); screen := [] |}.

(** ** Properties of the answer validation *)

Lemma text_match_first (t ans : string) (chs : list string) :
  text_match t ans chs None false =
  match List.find (fun ch => String.eqb (PyStr.lower ch) t) chs with
  | Some ch => (Some ch, String.eqb ch ans)
  | None => (None, false)
  end.
Proof.
  induction chs as [|ch chs IH]; simpl; [reflexivity|].
  destruct (String.eqb (PyStr.lower ch) t); [reflexivity|exact IH].
Qed.

Lemma isdigit_truthy (u : string) : PyStr.isdigit u = true -> PyStr.truthy u = true.
Proof. unfold PyStr.isdigit. intros H. apply andb_true_iff in H. tauto. Qed.

(** C8. A digit string that reads as [k] with [1 <= k <= len(choices)]
    selects [choices[k-1]], and is correct exactly when that option is the
    answer, character for character; so ["1"] on [B, A, C, D] with answer
    [A] gives [B], incorrect, and ["2"] gives [A], correct. *)
Theorem resolve_numeric :
  (forall (u : string) (k : Z) (chs : list string) (ans : string),
      PyStr.isdigit u = true ->
      PyStr.int u = Some k ->
      (1 <= k <= len chs)%Z ->
      exists ch c,
        chs !! Z.to_nat (k - 1) = Some ch /\
        resolve (Some u) chs ans = Ok (Some ch, c) /\
        (c = true <-> ch = ans))
  /\ resolve (Some "1") ["B"; "A"; "C"; "D"] "A" = Ok (Some "B", false)
  /\ resolve (Some "2") ["B"; "A"; "C"; "D"] "A" = Ok (Some "A", true).
Proof.
  split; [|split; reflexivity].
  intros u k chs ans Hd Hi Hk. unfold len in Hk.
  destruct (lookup_lt_is_Some_2 chs (Z.to_nat (k - 1))) as [ch Hch]; [lia|].
  exists ch, (String.eqb ch ans). split; [exact Hch|]. split.
  - unfold resolve. rewrite Hd, (isdigit_truthy u Hd), Hi. simpl.
    replace ((0 <=? k - 1)%Z && (k - 1 <? Z.of_nat (length chs))%Z) with true
      by (symmetry; apply andb_true_iff; split; [apply Z.leb_le|apply Z.ltb_lt]; lia).
    rewrite Hch. reflexivity.
  - apply String.eqb_eq.
Qed.

Lemma resolve_numeric_witness :
  exists ch c,
    ["x"; "y"; "z"] !! Z.to_nat (3 - 1) = Some ch /\
    resolve (Some "03") ["x"; "y"; "z"] "z" = Ok (Some ch, c) /\
    (c = true <-> ch = "z").
Proof.
  apply (proj1 resolve_numeric "03" 3%Z ["x"; "y"; "z"] "z");
    [reflexivity | reflexivity | unfold len; simpl; lia].
Defined.

(** C1, as the specification states it, fails: a number out of range is
    not matched against the option texts. With the options [9, 7] the
    input ["9"] is no index, and the code gives no choice, where the text
    fallback of the specification finds the option ["9"]. *)
Lemma out_of_range_number_is_not_text_matched :
  resolve (Some "9") ["9"; "7"] "9" = Ok (None, false)
  /\ spec_resolve (Some "9") ["9"; "7"] "9" = (Some "9", true).
Proof. split; reflexivity. Qed.

(** C1, amended. An input that is not empty and is not a digit string is
    matched, lower-cased, against each lower-cased option in presentation
    order: the first match is chosen and is correct when it equals the
    answer; without a match there is no choice and the answer is
    incorrect. A digit string that reads as a number outside
    [1..len(choices)] gives no choice and is incorrect, whatever the
    option texts are. *)
Theorem resolve_text_fallback (u : string) (chs : list string) (ans : string) :
  PyStr.truthy u = true ->
  (PyStr.isdigit u = false ->
     resolve (Some u) chs ans = Ok (text_fallback u chs ans))
  /\ (forall k : Z,
        PyStr.isdigit u = true -> PyStr.int u = Some k ->
        ~ (1 <= k <= len chs)%Z ->
        resolve (Some u) chs ans = Ok (None, false)).
Proof.
  intros Ht. split.
  - intros Hd. unfold resolve. rewrite Ht, Hd. simpl.
    rewrite text_match_first. reflexivity.
  - intros k Hd Hi Hk. unfold resolve. rewrite Ht, Hd, Hi. simpl.
    unfold len in Hk.
    destruct ((0 <=? k - 1)%Z && (k - 1 <? Z.of_nat (length chs))%Z) eqn:E; [|reflexivity].
    apply andb_true_iff in E. destruct E as [E1 E2].
    apply Z.leb_le in E1. apply Z.ltb_lt in E2. lia.
Qed.

Lemma resolve_text_fallback_witness :
  resolve (Some "mongodb") ["MySQL"; "MongoDB"] "MongoDB" = Ok (Some "MongoDB", true)
  /\ resolve (Some "0") ["MySQL"; "MongoDB"] "MongoDB" = Ok (None, false).
Proof.
  split.
  - apply (proj1 (resolve_text_fallback "mongodb" ["MySQL"; "MongoDB"] "MongoDB" eq_refl)).
    reflexivity.
  - apply (proj2 (resolve_text_fallback "0" ["MySQL"; "MongoDB"] "MongoDB" eq_refl) 0%Z);
      [reflexivity | reflexivity | unfold len; simpl; lia].
Defined.

Lemma text_match_none (t ans : string) (chs : list string) (c : bool) :
  text_match t ans chs None false = (None, c) -> c = false.
Proof.
  rewrite text_match_first.
  destruct (List.find _ chs); intros H; inversion H; reflexivity.
Qed.

Lemma resolve_none_incorrect (uc : option string) (chs : list string)
    (ans : string) (c : bool) :
  resolve uc chs ans = Ok (None, c) -> c = false.
Proof.
  unfold resolve. destruct uc as [u|]; [|intros H; inversion H; reflexivity].
  destruct (PyStr.truthy u && PyStr.isdigit u).
  - destruct (PyStr.int u) as [k|]; [|discriminate].
    destruct ((0 <=? k - 1)%Z && (k - 1 <? Z.of_nat (length chs))%Z).
    + destruct (chs !! Z.to_nat (k - 1)); intros H; inversion H.
    + intros H; inversion H; reflexivity.
  - destruct (PyStr.truthy u); intros H; inversion H as [H1]; [|reflexivity].
    exact (text_match_none _ _ _ _ H1).
Qed.

(** C3, as the specification states it, fails on the text: the log of an
    unanswered question holds ["No valid answer"], with a capital N. *)
Lemma unanswered_log_text :
  match fst (sample_run Writable "hard" true (Some 1%Z) [ {| text := "2"; delay := 20 |} ]) with
  | Ok (Some e) => map (fun d => (your d, result d)) (details e)
  | _ => []
  end = [ (Some "No valid answer", "incorrect") ]
  /\ String.eqb "No valid answer" "no valid answer" = false.
Proof. split; vm_compute; reflexivity. Qed.

(** C3, amended. Whenever the validation ends without a choice (no input
    or an empty one, a number out of range, a text that matches no option),
    the answer counts as incorrect, and the entry appended to the detail
    log has ["your"] equal to the string ["No valid answer"] and ["result"]
    equal to ["incorrect"]; the score is unchanged. *)
Theorem no_valid_answer_logged (qu : Question) (uc : option string)
    (chs : list string) (c : bool) (sc : Z) (ds : list Detail) (st : state) :
  resolve uc chs (answer qu) = Ok (None, c) ->
  c = false
  /\ record_outcome qu None c sc ds st =
       (Ok (sc, ds ++ [ {| question := q qu; your := Some "No valid answer";
                           correct := answer qu; result := "incorrect" |} ]),
        set_stdout (stdout st ++ [IncorrectMsg (answer qu)]) st).
Proof.
  intros H. apply resolve_none_incorrect in H. subst c. split; reflexivity.
Qed.

Lemma no_valid_answer_logged_witness :
  false = false
  /\ record_outcome {| q := "Q?"; choices := 0; answer := "A"; difficulty := "easy" |}
       None false 3 [] (fresh_state Writable []) =
       (Ok (3%Z, [ {| question := "Q?"; your := Some "No valid answer";
                     correct := "A"; result := "incorrect" |} ]),
        set_stdout [IncorrectMsg "A"] (fresh_state Writable [])).
Proof.
  apply (no_valid_answer_logged
           {| q := "Q?"; choices := 0; answer := "A"; difficulty := "easy" |}
           (Some "7") ["A"; "B"] false 3 [] (fresh_state Writable [])).
  reflexivity.
Defined.

(** The three ways to give no valid answer all end without a choice. *)
Lemma resolve_no_input (chs : list string) (ans : string) :
  resolve None chs ans = Ok (None, false)
  /\ resolve (Some "") chs ans = Ok (None, false).
Proof. split; reflexivity. Qed.

(** ** Where the code and the specification's resolver agree *)

Lemma lower_char_isdigit (c : ascii) :
  PyStr.isdigit_char (PyStr.lower_char c) = PyStr.isdigit_char c.
Proof.
  destruct c as [b0 b1 b2 b3 b4 b5 b6 b7].
  destruct b0, b1, b2, b3, b4, b5, b6, b7; reflexivity.
Qed.

Lemma lower_isdigit (s : string) : PyStr.isdigit (PyStr.lower s) = PyStr.isdigit s.
Proof.
  unfold PyStr.isdigit. destruct s as [|c s]; [reflexivity|]. f_equal.
  revert c. induction s as [|c' s IH]; intros c; simpl.
  - rewrite lower_char_isdigit. reflexivity.
  - rewrite lower_char_isdigit. f_equal. apply IH.
Qed.

Lemma first_match_isdigit (u : string) (chs : list string) (ch : string) :
  first_match u chs = Some ch -> In ch chs /\ PyStr.isdigit ch = PyStr.isdigit u.
Proof.
  unfold first_match. intros H. apply List.find_some in H. destruct H as [Hin He].
  apply String.eqb_eq in He. split; [exact Hin|].
  rewrite <- (lower_isdigit ch), He. apply lower_isdigit.
Qed.

(** When no option is itself a digit string, as in the sample bank, a
    number out of range matches no option text, and whatever the
    validation returns is what the specification's resolver gives. *)
Lemma resolve_refines_spec (uc : option string) (chs : list string) (ans : string)
    (r : option string * bool) :
  Forall (fun ch => PyStr.isdigit ch = false) chs ->
  resolve uc chs ans = Ok r -> spec_resolve uc chs ans = r.
Proof.
  intros Hchs. unfold resolve, spec_resolve.
  destruct uc as [u|]; [|intros H; inversion H; reflexivity].
  destruct (PyStr.truthy u) eqn:Ht; simpl; [|intros H; inversion H; reflexivity].
  destruct (PyStr.isdigit u) eqn:Hd.
  - destruct (PyStr.int u) as [k|]; [|discriminate]. unfold len.
    replace ((1 <=? k)%Z && (k <=? Z.of_nat (length chs))%Z)
      with ((0 <=? k - 1)%Z && (k - 1 <? Z.of_nat (length chs))%Z)
      by (apply eq_true_iff_eq; rewrite !andb_true_iff, !Z.leb_le, Z.ltb_lt; lia).
    destruct ((0 <=? k - 1)%Z && (k - 1 <? Z.of_nat (length chs))%Z).
    + destruct (chs !! Z.to_nat (k - 1)); intros H; inversion H; reflexivity.
    + intros H. inversion H. unfold text_fallback.
      destruct (first_match u chs) as [ch|] eqn:F; [|reflexivity].
      apply first_match_isdigit in F. destruct F as [Hin Hdig].
      rewrite Forall_forall in Hchs. apply list_elem_of_In in Hin.
      rewrite (Hchs ch Hin), Hd in Hdig. discriminate.
  - intros H. inversion H. rewrite text_match_first. reflexivity.
Qed.

Lemma sample_options_not_digits :
  Forall (Forall (fun ch => PyStr.isdigit ch = false)) sample_choices.
Proof. repeat constructor. Qed.

(** What "the first match" is: the options before it do not match. *)
Lemma first_match_spec (u : string) (chs : list string) (ch : string) :
  first_match u chs = Some ch <->
  exists pre post,
    chs = pre ++ ch :: post
    /\ PyStr.lower ch = PyStr.lower u
    /\ Forall (fun x => PyStr.lower x <> PyStr.lower u) pre.
Proof.
  unfold first_match. induction chs as [|x chs IH]; simpl.
  - split; [discriminate|]. intros (pre & post & H & _). destruct pre; discriminate.
  - destruct (String.eqb_spec (PyStr.lower x) (PyStr.lower u)) as [E|E].
    + split.
      * intros H. inversion H; subst. exists [], chs. repeat split; [exact E|constructor].
      * intros (pre & post & H & Hm & Hpre). destruct pre as [|y pre].
        -- inversion H. reflexivity.
        -- inversion H; subst. apply Forall_cons in Hpre. destruct Hpre as [Hy _].
           contradiction.
    + rewrite IH. split.
      * intros (pre & post & -> & Hm & Hpre). exists (x :: pre), post.
        repeat split; [exact Hm|]. constructor; assumption.
      * intros (pre & post & H & Hm & Hpre). destruct pre as [|y pre].
        -- inversion H; subst. contradiction.
        -- inversion H; subst. apply Forall_cons in Hpre. destruct Hpre as [_ Hpre].
           exists pre, post. repeat split; assumption.
Qed.

Example resolve_text_cpu :
  resolve (Some "central processing unit")
    ["Computer Primary Unit"; "Central Processing Unit"] "Central Processing Unit"
  = Ok (Some "Central Processing Unit", true).
Proof. reflexivity. Qed.

Example resolve_out_of_range : resolve (Some "9") ["A"; "B"] "A" = Ok (None, false).
Proof. reflexivity. Qed.

Example resolve_unmatched : resolve (Some "xyz") ["A"; "B"] "A" = Ok (None, false).
Proof. reflexivity. Qed.

(** A superscript two passes [isdigit] and [int] refuses it. *)
Example resolve_superscript :
  resolve (Some (String (ascii_of_N 178) EmptyString)) ["A"; "B"] "A" = Raise ValueError.
Proof. reflexivity. Qed.

(** ** Reasoning about runs *)

Lemma bind_ok {A B : Type} (m : M A) (k : A -> M B) (st st' : state) (b : B) :
  bind m k st = (Ok b, st') ->
  exists a st1, m st = (Ok a, st1) /\ k a st1 = (Ok b, st').
Proof.
  unfold bind. destruct (m st) as [[a|e] st1]; intros H; [|discriminate].
  exists a, st1. split; [reflexivity|exact H].
Qed.

Section Steps.
Variable R : state -> state -> Prop.
Hypothesis R_refl : forall st, R st st.
Hypothesis R_trans : forall a b c, R a b -> R b c -> R a c.

Lemma steps_ret {A : Type} (a : A) : steps R (ret a).
Proof. intros st. apply R_refl. Qed.

Lemma steps_lift {A : Type} (r : outcome A) : steps R (lift r).
Proof. intros st. apply R_refl. Qed.

Lemma steps_bind {A B : Type} (m : M A) (k : A -> M B) :
  steps R m -> (forall a, steps R (k a)) -> steps R (bind m k).
Proof.
  intros Hm Hk st. unfold bind. specialize (Hm st).
  destruct (m st) as [[a|e] st1]; simpl in *; [|exact Hm].
  eapply R_trans; [exact Hm|apply Hk].
Qed.
End Steps.

Lemma evolves_refl (st : state) : evolves st st.
Proof.
  repeat split; auto. exists []. symmetry. apply app_nil_r.
Qed.

Lemma evolves_trans (a b c : state) : evolves a b -> evolves b c -> evolves a c.
Proof.
  intros (Hh1 & Hf1 & Hd1 & o1 & Ho1) (Hh2 & Hf2 & Hd2 & o2 & Ho2).
  repeat split.
  - intros l Hl. rewrite Hh2; [apply Hh1; exact Hl|].
    rewrite Hh1 by exact Hl. exact Hl.
  - congruence.
  - congruence.
  - exists (o1 ++ o2). rewrite Ho2, Ho1. symmetry. apply app_assoc.
Qed.

Create HintDb steps.

#[local] Hint Resolve evolves_refl : steps.

Ltac steps_bind :=
  apply (steps_bind evolves evolves_trans).

Lemma steps_print (e : event) : steps evolves (print e).
Proof.
  intros st. repeat split; auto. exists [e]. reflexivity.
Qed.

Lemma steps_print_all (es : list event) : steps evolves (print_all es).
Proof.
  induction es as [|e es IH]; simpl.
  - apply steps_ret, evolves_refl.
  - steps_bind; [apply steps_print|intros _; exact IH].
Qed.

Lemma steps_set_stdin (A : Type) (f : state -> outcome A) (g : state -> list keystroke) :
  steps evolves (fun st => (f st, set_stdin (g st) st)).
Proof. intros st. simpl. repeat split; auto. exists []. symmetry. apply app_nil_r. Qed.

Lemma steps_input (n : Z) : steps evolves (input n).
Proof.
  unfold input. steps_bind; [apply steps_print|intros _].
  intros st. destruct (stdin st); simpl; [apply evolves_refl|].
  repeat split; auto. exists []. symmetry. apply app_nil_r.
Qed.

Lemma steps_timed_input (windows : bool) (n : Z) (timeout : nat) :
  steps evolves (timed_input windows n timeout).
Proof.
  unfold timed_input. destruct windows.
  - steps_bind; [apply steps_input|intros a; apply steps_ret, evolves_refl].
  - steps_bind; [apply steps_print|intros _].
    steps_bind.
    + intros st. destruct (stdin st); simpl; apply evolves_refl.
    + intros k. destruct ((timeout =? 0)%nat || (delay k <? timeout)%nat).
      * apply (steps_set_stdin _ (fun _ => Ok (Some (text k)))).
      * steps_bind; [apply (steps_set_stdin _ (fun _ => Ok tt))|intros _].
        steps_bind; [apply steps_print|intros _; apply steps_ret, evolves_refl].
Qed.

Lemma steps_get_answer (windows timed : bool) (t : nat) (n : Z) :
  steps evolves (get_answer windows timed t n).
Proof.
  unfold get_answer. destruct timed.
  - steps_bind; [apply steps_timed_input|].
    intros [a|]; apply steps_ret, evolves_refl.
  - steps_bind; [apply steps_input|intros a; apply steps_ret, evolves_refl].
Qed.

Lemma steps_deref (l : loc) : steps evolves (deref l).
Proof. intros st. apply evolves_refl. Qed.

Lemma steps_shuffle (entropy : nat -> nat) {A : Type} (x : list A) :
  steps evolves (shuffle entropy x).
Proof.
  intros st. unfold shuffle. destruct (shuffle_from _ _ _ _) as [x' n]. simpl.
  repeat split; auto. exists []. symmetry. apply app_nil_r.
Qed.

(** The copy is a new object, and it is the copy that is shuffled: the
    objects that existed keep their items. *)
Lemma steps_copy_shuffle (entropy : nat -> nat) {B : Type} (c : loc) (K : loc -> M B) :
  (forall l, steps evolves (K l)) ->
  steps evolves (bind (list_copy c) (fun l => bind (shuffle_at entropy l) (fun _ => K l))).
Proof.
  intros HK st. unfold bind, list_copy, shuffle_at. simpl.
  destruct (shuffle_from _ _ _ _) as [x' n]. simpl.
  eapply evolves_trans; [|apply HK].
  repeat split; simpl; auto.
  - intros l Hl.
    assert (l <> fresh (dom (heap st))) as Hne.
    { intros ->. apply elem_of_dom in Hl. exact (is_fresh _ Hl). }
    rewrite !lookup_insert_ne by congruence. reflexivity.
  - exists []. symmetry. apply app_nil_r.
Qed.

Lemma steps_record_outcome (qu : Question) (ch : option string) (c : bool)
    (sc : Z) (ds : list Detail) :
  steps evolves (record_outcome qu ch c sc ds).
Proof.
  unfold record_outcome. destruct c;
    (steps_bind; [apply steps_print|intros _; apply steps_ret, evolves_refl]).
Qed.

Lemma steps_quiz_loop (windows : bool) (entropy : nat -> nat) (timed : bool)
    (t : nat) (tot : Z) (pool : list Question) :
  forall (i sc : Z) (ds : list Detail),
    steps evolves (quiz_loop windows entropy timed t tot i pool sc ds).
Proof.
  induction pool as [|qu pool IH]; intros i sc ds; simpl.
  - apply steps_ret, evolves_refl.
  - apply steps_copy_shuffle. intros l.
    steps_bind; [apply steps_deref|intros chs].
    steps_bind; [apply steps_print|intros _].
    steps_bind; [apply steps_print_all|intros _].
    steps_bind; [apply steps_get_answer|intros uc].
    steps_bind; [apply steps_lift, evolves_refl|intros r].
    steps_bind; [apply steps_record_outcome|intros sd].
    apply IH.
Qed.

Lemma steps_play_quiz (windows : bool) (entropy : nat -> nat) (now : string)
    (QUESTIONS : list Question) (usr wanted : string) (timed : bool) (t : nat)
    (nq : option Z) :
  steps evolves (play_quiz windows entropy now QUESTIONS usr wanted timed t nq).
Proof.
  unfold play_quiz. destruct (List.filter _ QUESTIONS) as [|q0 pool].
  - steps_bind; [apply steps_print|intros _; apply steps_ret, evolves_refl].
  - steps_bind; [apply steps_shuffle|intros pool'].
    steps_bind; [apply steps_print|intros _].
    steps_bind; [apply steps_quiz_loop|intros sd].
    steps_bind; [apply steps_lift, evolves_refl|intros p].
    steps_bind; [apply steps_print|intros _].
    steps_bind; [apply steps_print|intros _].
    steps_bind; [apply steps_print|intros _].
    steps_bind; [apply steps_lift, evolves_refl|intros a].
    steps_bind; [apply steps_print|intros _].
    apply steps_ret, evolves_refl.
Qed.

(** ** Shuffling rearranges *)

Lemma swap_perm {A : Type} (x : list A) (i j : nat) : Permutation (swap x i j) x.
Proof.
  unfold swap. destruct (x !! i) as [a|] eqn:Hi; [|reflexivity].
  destruct (x !! j) as [b|] eqn:Hj; [|reflexivity].
  apply Permutation_insert_swap; assumption.
Qed.

Lemma shuffle_from_perm (entropy : nat -> nat) {A : Type} (i : nat) :
  forall (x : list A) (n : nat), Permutation (fst (shuffle_from entropy i x n)) x.
Proof.
  induction i as [|i IH]; intros x n; simpl; [reflexivity|].
  rewrite IH. apply swap_perm.
Qed.

(** The pool of a session is a rearrangement of the filtered bank. *)
Lemma shuffle_perm (entropy : nat -> nat) {A : Type} (x x' : list A) (st st' : state) :
  shuffle entropy x st = (Ok x', st') -> Permutation x' x.
Proof.
  unfold shuffle. pose proof (shuffle_from_perm entropy (length x - 1) x (draws st)) as P.
  destruct (shuffle_from _ _ _ _) as [y n]. intros H. inversion H; subst. exact P.
Qed.

(** The options shown for a question are a rearrangement of the options
    the question has in the bank. *)
Lemma presented_options_perm (entropy : nat -> nat) (c : loc) (chs : list string)
    (st st' : state) :
  bind (list_copy c) (fun l => bind (shuffle_at entropy l) (fun _ => deref l)) st
  = (Ok chs, st') ->
  Permutation chs (default [] (heap st !! c)).
Proof.
  unfold bind, list_copy, shuffle_at, deref. simpl.
  rewrite lookup_insert_eq. simpl.
  pose proof (shuffle_from_perm entropy (length (default [] (heap st !! c)) - 1)
                (default [] (heap st !! c)) (draws st)) as P.
  destruct (shuffle_from _ _ _ _) as [y n]. simpl.
  rewrite lookup_insert_eq. simpl. intros H. inversion H; subst. exact P.
Qed.

(** ** The scorer *)

Ltac inv_bind H :=
  let a := fresh "a" in
  let s := fresh "s" in
  let H1 := fresh "Hm" in
  apply bind_ok in H; destruct H as (a & s & H1 & H).

Lemma count_correct_app (ds1 ds2 : list Detail) :
  count_correct (ds1 ++ ds2) = (count_correct ds1 + count_correct ds2)%Z.
Proof.
  unfold count_correct, len. rewrite List.filter_app, length_app. lia.
Qed.

Lemma count_correct_bounds (ds : list Detail) :
  (0 <= count_correct ds <= len ds)%Z.
Proof.
  unfold count_correct, len.
  pose proof (List.filter_length_le (fun d => String.eqb (result d) "correct") ds).
  lia.
Qed.

Lemma record_outcome_ok (qu : Question) (ch : option string) (c : bool)
    (sc : Z) (ds : list Detail) (st st' : state) (sd : Z * list Detail) :
  record_outcome qu ch c sc ds st = (Ok sd, st') ->
  exists d, snd sd = ds ++ [d]
            /\ fst sd = (sc + count_correct [d])%Z
            /\ question d = q qu /\ correct d = answer qu.
Proof.
  unfold record_outcome. destruct c; intros H; inv_bind H; inversion H; subst;
    eexists; simpl; (split; [reflexivity|]); (split; [|split; reflexivity]);
    unfold count_correct, len; simpl; lia.
Qed.

(** The loop appends one detail per question, in order, and adds to the
    score the number of details it marked correct. *)
Lemma quiz_loop_ok (windows : bool) (entropy : nat -> nat) (timed : bool)
    (t : nat) (tot : Z) (pool : list Question) :
  forall (i sc : Z) (ds : list Detail) (st st' : state) (sd : Z * list Detail),
    quiz_loop windows entropy timed t tot i pool sc ds st = (Ok sd, st') ->
    exists new, snd sd = ds ++ new
                /\ fst sd = (sc + count_correct new)%Z
                /\ map question new = map q pool.
Proof.
  induction pool as [|qu pool IH]; intros i sc ds st st' sd H; simpl in H.
  - inversion H; subst. exists []. simpl. rewrite app_nil_r.
    unfold count_correct, len. simpl. split; [reflexivity|]. split; [lia|reflexivity].
  - do 7 inv_bind H. inv_bind H.
    apply record_outcome_ok in Hm6. destruct Hm6 as (d & Hd1 & Hd2 & Hd3 & _).
    apply IH in H. destruct H as (new & Hn1 & Hn2 & Hn3).
    exists (d :: new). rewrite Hn1, Hn2, Hd1, Hd2.
    rewrite <- app_assoc. simpl. split; [reflexivity|].
    split; [|congruence].
    change (d :: new) with ([d] ++ new). rewrite count_correct_app. lia.
Qed.

Lemma accuracy_of_ok (ds : list Detail) (tot : Z) (a : float) :
  accuracy_of ds tot = Ok a ->
  tot <> 0%Z
  /\ a = PrimFloat.mul (PrimFloat.div (float_of_int (count_correct ds)) (float_of_int tot))
           hundred.
Proof.
  unfold accuracy_of, truediv. destruct (Z.eqb_spec tot 0); [discriminate|].
  intros H. inversion H. split; [assumption|reflexivity].
Qed.

Lemma percentage_of_nonzero (sc tot : Z) :
  tot <> 0%Z ->
  percentage_of sc tot =
  Ok (PrimFloat.mul (PrimFloat.div (float_of_int sc) (float_of_int tot)) hundred).
Proof.
  intros Ht. unfold percentage_of, truediv.
  destruct (Z.eqb_spec tot 0); [contradiction|reflexivity].
Qed.

Lemma run_quiz_ok (windows : bool) (entropy : nat -> nat) (now : string)
    (QUESTIONS : list Question) (usr wanted : string) (timed : bool) (t : nat)
    (nq : option Z) (st st' : state) (e : Entry) :
  run_quiz windows entropy now QUESTIONS usr wanted timed t nq st = (Ok (Some e), st') ->
  exists st1 st2,
    play_quiz windows entropy now QUESTIONS usr wanted timed t nq st = (Ok (Some e), st1)
    /\ save_score e st1 = (Ok tt, st2)
    /\ st' = set_stdout (stdout st2 ++ [ResultSaved]) st2.
Proof.
  unfold run_quiz. intros H. inv_bind H. destruct a as [entry|]; [|discriminate].
  inv_bind H. inv_bind H. inversion H; subst. inversion Hm1; subst.
  destruct a. eauto.
Qed.

Lemma save_score_ok (e : Entry) (st st' : state) :
  save_score e st = (Ok tt, st') ->
  disk st = Writable
  /\ st' = set_scores_file
             (Stored (match scores_file st with Stored d => d | _ => [] end ++ [e])) st.
Proof.
  unfold save_score, bind, load_scores.
  destruct (scores_file st); simpl; destruct (disk st); intros H; inversion H; auto.
Qed.

Lemma lift_ok {A : Type} (r : outcome A) (a : A) (st st' : state) :
  lift r st = (Ok a, st') -> r = Ok a /\ st' = st.
Proof. unfold lift. intros H. inversion H. auto. Qed.

Lemma print_ok (ev : event) (u : unit) (st st' : state) :
  print ev st = (Ok u, st') -> st' = set_stdout (stdout st ++ [ev]) st.
Proof. unfold print. intros H. inversion H. reflexivity. Qed.

Tactic Notation "bind_inv" hyp(H) "as" ident(a) ident(s) ident(H1) :=
  apply bind_ok in H; destruct H as (a & s & H1 & H).

(** What a session that reaches its end has computed and printed. *)
Lemma play_quiz_ok (windows : bool) (entropy : nat -> nat) (now : string)
    (QUESTIONS : list Question) (usr wanted : string) (timed : bool) (t : nat)
    (nq : option Z) (st st' : state) (e : Entry) :
  play_quiz windows entropy now QUESTIONS usr wanted timed t nq st = (Ok (Some e), st') ->
  score e = count_correct (details e)
  /\ total e = len (details e)
  /\ percentage_of (score e) (total e) = Ok (percentage e)
  /\ accuracy_of (details e) (total e) = Ok (percentage e)
  /\ user e = usr /\ timestamp e = now
  /\ exists out,
       stdout st' = stdout st ++ out ++
         [QuizCompleted; ScoreLine (score e) (total e);
          PercentageLine (percentage e); AccuracyLine (percentage e)].
Proof.
  unfold play_quiz. destruct (List.filter _ QUESTIONS) as [|q0 pool0].
  { intros H. inv_bind H. inversion H. }
  intros H. bind_inv H as pool1 s1 Hshuf.
  set (pool := match nq with
               | Some n => if (n =? 0)%Z then pool1 else slice_to n pool1
               | None => pool1
               end) in H.
  cbv zeta in H.
  bind_inv H as u2 s2 Hstart. bind_inv H as sd s3 Hloop.
  bind_inv H as p s4 Hp. apply lift_ok in Hp. destruct Hp as [Hp ->].
  bind_inv H as u5 s5 Hp5. bind_inv H as u6 s6 Hp6. bind_inv H as u7 s7 Hp7.
  bind_inv H as acc s8 Hacc. apply lift_ok in Hacc. destruct Hacc as [Hacc ->].
  bind_inv H as u9 s9 Hp9. inversion H; subst e st'; clear H. simpl.
  apply quiz_loop_ok in Hloop as Hl. destruct Hl as (new & Hn1 & Hn2 & Hn3).
  destruct sd as [sc ds]. simpl in Hn1, Hn2. subst sc ds. simpl in *. rewrite Z.add_0_l in *.
  assert (len pool = len new) as Hlen.
  { unfold len. f_equal. rewrite <- (length_map q pool), <- Hn3. apply length_map. }
  rewrite Hlen in *.
  destruct (accuracy_of_ok _ _ _ Hacc) as [Hnz Ha].
  rewrite (percentage_of_nonzero _ _ Hnz) in Hp. inversion Hp; subst p.
  split; [reflexivity|]. split; [reflexivity|].
  split; [apply percentage_of_nonzero; exact Hnz|].
  split; [rewrite Hacc, Ha; reflexivity|].
  split; [reflexivity|]. split; [reflexivity|].
  pose proof (steps_shuffle entropy (q0 :: pool0) st) as E1. rewrite Hshuf in E1.
  pose proof (steps_quiz_loop windows entropy timed t (len new) pool 1%Z 0%Z [] s2) as E2.
  rewrite Hloop in E2. simpl in E1, E2.
  apply print_ok in Hstart, Hp5, Hp6, Hp7, Hp9. subst s2 s5 s6 s7 s9.
  destruct E1 as (_ & _ & _ & o1 & E1). destruct E2 as (_ & _ & _ & o2 & E2).
  simpl in *. exists (o1 ++ [Starting usr (len new) timed] ++ o2).
  rewrite E2, E1, Ha. rewrite <- !app_assoc. reflexivity.
Qed.

(** C2. In every session that ends with a result, [0 <= score <= total]
    (and [total] is positive), the score is the number of details marked
    correct, the accuracy recomputed from the detail log is the very float
    stored as the percentage, namely [score / total * 100], and this one
    value is what both the percentage and the accuracy lines print. *)
Theorem finalize_metrics (windows : bool) (entropy : nat -> nat) (now : string)
    (QUESTIONS : list Question) (usr wanted : string) (timed : bool) (t : nat)
    (nq : option Z) (st st' : state) (e : Entry) :
  run_quiz windows entropy now QUESTIONS usr wanted timed t nq st = (Ok (Some e), st') ->
  (0 <= score e <= total e)%Z
  /\ (0 < total e)%Z
  /\ score e = count_correct (details e)
  /\ accuracy_of (details e) (total e) = Ok (percentage e)
  /\ percentage_of (score e) (total e) = Ok (percentage e)
  /\ percentage e =
       PrimFloat.mul (PrimFloat.div (float_of_int (score e)) (float_of_int (total e)))
         hundred
  /\ exists out,
       stdout st' = stdout st ++ out ++
         [QuizCompleted; ScoreLine (score e) (total e);
          PercentageLine (percentage e); AccuracyLine (percentage e); ResultSaved].
Proof.
  intros H. apply run_quiz_ok in H. destruct H as (st1 & st2 & Hplay & Hsave & ->).
  apply play_quiz_ok in Hplay.
  destruct Hplay as (Hs & Ht & Hp & Ha & _ & _ & out & Hout).
  apply save_score_ok in Hsave. destruct Hsave as [_ ->].
  destruct (accuracy_of_ok _ _ _ Ha) as [Hnz _].
  pose proof (count_correct_bounds (details e)) as Hb.
  assert (0 <= len (details e))%Z by (unfold len; lia).
  split; [lia|]. split; [lia|]. split; [exact Hs|]. split; [exact Ha|].
  split; [exact Hp|]. split.
  - rewrite (percentage_of_nonzero _ _ Hnz) in Hp. injection Hp as Hp'.
    symmetry. exact Hp'.
  - exists out. simpl. rewrite Hout. rewrite <- !app_assoc. reflexivity.
Qed.

Lemma finalize_metrics_witness :
  exists e st',
    sample_run Writable "hard" false None (typing ["3"; "x"]) = (Ok (Some e), st')
    /\ (score e, total e) = (1%Z, 2%Z)
    /\ ((0 <= score e <= total e)%Z
        /\ (0 < total e)%Z
        /\ score e = count_correct (details e)
        /\ accuracy_of (details e) (total e) = Ok (percentage e)
        /\ percentage_of (score e) (total e) = Ok (percentage e)
        /\ percentage e =
             PrimFloat.mul
               (PrimFloat.div (float_of_int (score e)) (float_of_int (total e))) hundred
        /\ exists out,
             stdout st' = stdout (fresh_state Writable (typing ["3"; "x"])) ++ out ++
               [QuizCompleted; ScoreLine (score e) (total e);
                PercentageLine (percentage e); AccuracyLine (percentage e);
                ResultSaved]).
Proof.
  eexists. eexists. split; [vm_compute; reflexivity|].
  split; [reflexivity|].
  apply (finalize_metrics false (fun n => n) "2026-01-01T00:00:00" sample_QUESTIONS
           "ann" "hard" false 15 None (fresh_state Writable (typing ["3"; "x"]))).
  vm_compute. reflexivity.
Defined.

(** The questions asked are the first ones of a rearrangement of the
    questions of the requested difficulty: all of them, or as many as
    were asked for. *)
Lemma play_quiz_pool (windows : bool) (entropy : nat -> nat) (now : string)
    (QUESTIONS : list Question) (usr wanted : string) (timed : bool) (t : nat)
    (nq : option Z) (st st' : state) (e : Entry) :
  play_quiz windows entropy now QUESTIONS usr wanted timed t nq st = (Ok (Some e), st') ->
  exists shuffled,
    Permutation shuffled (List.filter (matches_difficulty wanted) QUESTIONS)
    /\ map question (details e)
       = map q match nq with
               | Some n => if (n =? 0)%Z then shuffled else slice_to n shuffled
               | None => shuffled
               end.
Proof.
  unfold play_quiz. destruct (List.filter _ QUESTIONS) as [|q0 pool0].
  { intros H. inv_bind H. inversion H. }
  intros H. bind_inv H as pool1 s1 Hshuf. cbv zeta in H.
  bind_inv H as u2 s2 Hstart. bind_inv H as sd s3 Hloop.
  bind_inv H as p s4 Hp. bind_inv H as u5 s5 Hp5. bind_inv H as u6 s6 Hp6.
  bind_inv H as u7 s7 Hp7. bind_inv H as acc s8 Hacc. bind_inv H as u9 s9 Hp9.
  inversion H; subst e st'; clear H. simpl.
  apply quiz_loop_ok in Hloop. destruct Hloop as (new & Hn1 & _ & Hn3).
  simpl in Hn1. rewrite Hn1. exists pool1. split; [|exact Hn3].
  exact (shuffle_perm entropy _ _ _ _ Hshuf).
Qed.

Lemma slice_to_length {A : Type} (n : Z) (l : list A) :
  length (slice_to n l) <= length l.
Proof.
  unfold slice_to. destruct (n <? 0)%Z; rewrite length_take; lia.
Qed.

(** A session asks at most as many questions as the bank has. *)
Lemma play_quiz_total_le (windows : bool) (entropy : nat -> nat) (now : string)
    (QUESTIONS : list Question) (usr wanted : string) (timed : bool) (t : nat)
    (nq : option Z) (st st' : state) (e : Entry) :
  play_quiz windows entropy now QUESTIONS usr wanted timed t nq st = (Ok (Some e), st') ->
  (total e <= len QUESTIONS)%Z.
Proof.
  intros H. destruct (play_quiz_pool _ _ _ _ _ _ _ _ _ _ _ _ H) as (sh & Hperm & Hq).
  apply play_quiz_ok in H. destruct H as (_ & Ht & _).
  rewrite Ht. unfold len. apply inj_le.
  rewrite <- (length_map question), Hq, length_map.
  pose proof (List.filter_length_le (matches_difficulty wanted) QUESTIONS) as Hf.
  apply Permutation_length in Hperm.
  assert (forall l : list Question, length l <= length sh -> length l <= length QUESTIONS)
    as Hle by (intros; lia).
  apply Hle. destruct nq as [n|]; [|lia].
  destruct (n =? 0)%Z; [lia|apply slice_to_length].
Qed.

(** With up to nine questions, no percentage is NaN. *)
Lemma small_percentage_ordered (n m : nat) :
  n <= m -> 1 <= m <= 9 ->
  ordered (PrimFloat.mul
             (PrimFloat.div (float_of_int (Z.of_nat n)) (float_of_int (Z.of_nat m)))
             hundred).
Proof.
  intros Hn Hm.
  do 10 (destruct m as [|m];
         [ do 10 (destruct n as [|n]; [first [lia|reflexivity]|]); lia |]).
  lia.
Qed.

(** Every record that a session on the sample bank produces has a
    percentage that the leaderboard can rank. *)
Lemma sample_percentage_ordered (windows : bool) (entropy : nat -> nat) (now : string)
    (usr wanted : string) (timed : bool) (t : nat) (nq : option Z)
    (st st' : state) (e : Entry) :
  play_quiz windows entropy now sample_QUESTIONS usr wanted timed t nq st
  = (Ok (Some e), st') ->
  ordered (percentage e).
Proof.
  intros H. pose proof (play_quiz_total_le _ _ _ _ _ _ _ _ _ _ _ _ H) as Hle.
  apply play_quiz_ok in H.
  destruct H as (Hs & Ht & Hp & Ha & _).
  destruct (accuracy_of_ok _ _ _ Ha) as [Hnz _].
  rewrite (percentage_of_nonzero _ _ Hnz) in Hp. injection Hp as Hp. rewrite <- Hp.
  pose proof (count_correct_bounds (details e)) as Hb.
  change (len sample_QUESTIONS) with 9%Z in Hle.
  assert (0 <= total e)%Z by (rewrite Ht; unfold len; lia).
  rewrite <- (Z2Nat.id (score e)), <- (Z2Nat.id (total e)) by lia.
  apply small_percentage_ordered; lia.
Qed.

(** ** The empty pool *)

(** C7. When no question of the bank has the requested difficulty,
    [run_quiz] reports it and returns at once with no record: the one line
    printed is the report, no question is asked (nothing is read from the
    keyboard, nothing is shuffled), and the score file is as it was. *)
Theorem empty_pool_aborts (windows : bool) (entropy : nat -> nat) (now : string)
    (QUESTIONS : list Question) (usr wanted : string) (timed : bool) (t : nat)
    (nq : option Z) (st : state) :
  List.filter (matches_difficulty wanted) QUESTIONS = [] ->
  run_quiz windows entropy now QUESTIONS usr wanted timed t nq st =
    (Ok None, set_stdout (stdout st ++ [NoQuestionsMatch]) st)
  /\ scores_file (snd (run_quiz windows entropy now QUESTIONS usr wanted timed t nq st))
     = scores_file st
  /\ stdin (snd (run_quiz windows entropy now QUESTIONS usr wanted timed t nq st))
     = stdin st.
Proof.
  intros H.
  assert (run_quiz windows entropy now QUESTIONS usr wanted timed t nq st =
          (Ok None, set_stdout (stdout st ++ [NoQuestionsMatch]) st)) as E.
  { unfold run_quiz, play_quiz. rewrite H. reflexivity. }
  rewrite E. repeat split.
Qed.

Lemma empty_pool_aborts_witness :
  sample_run Writable "expert" true (Some 3%Z) (typing ["1"; "2"; "3"]) =
    (Ok None, set_stdout [NoQuestionsMatch] (fresh_state Writable (typing ["1"; "2"; "3"])))
  /\ scores_file (snd (sample_run Writable "expert" true (Some 3%Z) (typing ["1"; "2"; "3"])))
     = Missing
  /\ stdin (snd (sample_run Writable "expert" true (Some 3%Z) (typing ["1"; "2"; "3"])))
     = typing ["1"; "2"; "3"].
Proof.
  apply (empty_pool_aborts false (fun n => n) "2026-01-01T00:00:00" sample_QUESTIONS
           "ann" "expert" true 15 (Some 3%Z)
           (fresh_state Writable (typing ["1"; "2"; "3"]))).
  reflexivity.
Defined.

(** ** The leaderboard store *)

(** C6. On a disk that takes the write, [save_score] of a record followed
    by [load_scores] gives the records that [load_scores] gave before, in
    their order and unchanged, followed by the record saved, which is
    therefore the last one, equal to what was passed in. *)
Theorem save_then_load (entry : Entry) (st : state) (old : list Entry) :
  disk st = Writable ->
  fst (load_scores st) = Ok old ->
  exists st',
    save_score entry st = (Ok tt, st')
    /\ fst (load_scores st') = Ok (old ++ [entry])
    /\ last (old ++ [entry]) = Some entry.
Proof.
  intros Hd Hold.
  exists (set_scores_file (Stored (old ++ [entry])) st).
  split; [|split].
  - unfold save_score, bind. unfold load_scores in *.
    destruct (scores_file st); simpl in *; rewrite Hd; inversion Hold; reflexivity.
  - reflexivity.
  - apply last_snoc.
Qed.

Lemma save_then_load_witness :
  exists st',
    save_score (sample_entry "bob" 2 2) (stored_state [sample_entry "ann" 1 2]) = (Ok tt, st')
    /\ fst (load_scores st') = Ok ([sample_entry "ann" 1 2] ++ [sample_entry "bob" 2 2])
    /\ last ([sample_entry "ann" 1 2] ++ [sample_entry "bob" 2 2])
       = Some (sample_entry "bob" 2 2).
Proof.
  apply (save_then_load (sample_entry "bob" 2 2) (stored_state [sample_entry "ann" 1 2])
           [sample_entry "ann" 1 2]); reflexivity.
Defined.

(** C4, as the specification states it, fails: when the file cannot be
    opened for writing, [OSError] leaves [run_quiz]. The record is not
    returned, and the last line printed is the accuracy: no warning. The
    same session on a disk that takes the write returns its record. *)
Lemma write_failure_is_fatal :
  fst (sample_run OpenFails "hard" false (Some 1%Z) (typing ["3"])) = Raise OSError
  /\ stdout (snd (sample_run OpenFails "hard" false (Some 1%Z) (typing ["3"]))) =
       [ Starting "ann" 1 false;
         QuestionHeader 1 1 "Which Big O gives worst-case time complexity for QuickSort?";
         ChoiceLine 1 "O(n)"; ChoiceLine 2 "O(log n)"; ChoiceLine 3 "O(n^2)";
         ChoiceLine 4 "O(n log n)"; Prompt 4; CorrectMsg; QuizCompleted;
         ScoreLine 1 1; PercentageLine hundred; AccuracyLine hundred ]
  /\ option_map score
       match fst (sample_run Writable "hard" false (Some 1%Z) (typing ["3"])) with
       | Ok r => r
       | Raise _ => None
       end = Some 1%Z.
Proof. repeat split; vm_compute; reflexivity. Qed.

(** C4, amended. When a session reaches its end and the disk refuses the
    write, [run_quiz] ends with the [OSError] of [save_score]: it returns
    no record and prints nothing after the accuracy line, neither a
    warning nor the "Result saved" line. The score file is untouched when
    the open fails and is left unreadable when the dump fails. *)
Theorem write_failure_propagates (windows : bool) (entropy : nat -> nat) (now : string)
    (QUESTIONS : list Question) (usr wanted : string) (timed : bool) (t : nat)
    (nq : option Z) (st st1 : state) (e : Entry) :
  play_quiz windows entropy now QUESTIONS usr wanted timed t nq st = (Ok (Some e), st1) ->
  disk st <> Writable ->
  exists st2,
    run_quiz windows entropy now QUESTIONS usr wanted timed t nq st = (Raise OSError, st2)
    /\ stdout st2 = stdout st1
    /\ scores_file st2 =
         match disk st with
         | WriteFails => Corrupt
         | _ => scores_file st
         end.
Proof.
  intros Hplay Hd.
  pose proof (steps_play_quiz windows entropy now QUESTIONS usr wanted timed t nq st) as E.
  rewrite Hplay in E. destruct E as (_ & Hf & Hdisk & _). simpl in Hf, Hdisk.
  unfold run_quiz, bind. rewrite Hplay. unfold save_score, bind, load_scores.
  destruct (scores_file st1) eqn:F; simpl; rewrite Hdisk;
    destruct (disk st) eqn:D; try contradiction;
    eexists; (split; [reflexivity|]); simpl; split; congruence.
Qed.

Lemma write_failure_propagates_witness :
  exists st2,
    sample_run WriteFails "hard" false (Some 1%Z) (typing ["3"]) = (Raise OSError, st2)
    /\ stdout st2 =
         stdout (snd (play_quiz false (fun n => n) "2026-01-01T00:00:00" sample_QUESTIONS
                        "ann" "hard" false 15 (Some 1%Z)
                        (fresh_state WriteFails (typing ["3"]))))
    /\ scores_file st2 = Corrupt.
Proof.
  eapply (write_failure_propagates false (fun n => n) "2026-01-01T00:00:00"
            sample_QUESTIONS "ann" "hard" false 15 (Some 1%Z)
            (fresh_state WriteFails (typing ["3"]))).
  - vm_compute. reflexivity.
  - discriminate.
Defined.

(** ** The bank is not mutated *)

(** C9. A session never changes a list object that existed when it
    started, whatever the session does and however it ends: the options
    are shuffled in a copy that the session allocates, so each question of
    the bank still has its options in their original order. *)
Theorem options_never_mutated (windows : bool) (entropy : nat -> nat) (now : string)
    (QUESTIONS : list Question) (usr wanted : string) (timed : bool) (t : nat)
    (nq : option Z) (st : state) (l : loc) (items : list string) :
  heap st !! l = Some items ->
  heap (snd (run_quiz windows entropy now QUESTIONS usr wanted timed t nq st)) !! l
  = Some items.
Proof.
  intros Hl.
  pose proof (steps_play_quiz windows entropy now QUESTIONS usr wanted timed t nq st) as E.
  destruct E as (Hh & _). specialize (Hh l (ex_intro _ items Hl)).
  rewrite Hl in Hh. rewrite <- Hh.
  unfold run_quiz, bind.
  destruct (play_quiz _ _ _ _ _ _ _ _ _ st) as [[[e|]|ex] st1]; simpl; try reflexivity.
  unfold save_score, bind, load_scores.
  destruct (scores_file st1); simpl; destruct (disk st1); reflexivity.
Qed.

Lemma options_never_mutated_witness :
  heap (snd (sample_run Writable "hard" false None (typing ["3"; "x"]))) !! 8
  = Some ["O(n)"; "O(n log n)"; "O(n^2)"; "O(log n)"].
Proof.
  apply (options_never_mutated false (fun n => n) "2026-01-01T00:00:00" sample_QUESTIONS
           "ann" "hard" false 15 None (fresh_state Writable (typing ["3"; "x"])) 8).
  reflexivity.
Defined.

(** ** Whitespace around an answer *)

Lemma lstrip_whitespace (s : string) : whitespace s = true -> PyStr.lstrip s = "".
Proof.
  induction s as [|c s IH]; simpl; [reflexivity|].
  intros H. apply andb_true_iff in H. destruct H as [Hc Hs].
  rewrite Hc. exact (IH Hs).
Qed.

Lemma rstrip_whitespace (s : string) : whitespace s = true -> PyStr.rstrip s = "".
Proof.
  induction s as [|c s IH]; simpl; [reflexivity|].
  intros H. apply andb_true_iff in H. destruct H as [Hc Hs].
  rewrite (IH Hs), Hc. reflexivity.
Qed.

Lemma lstrip_pre (pre s : string) :
  whitespace pre = true -> PyStr.lstrip (pre ++ s)%string = PyStr.lstrip s.
Proof.
  induction pre as [|c pre IH]; simpl; [reflexivity|].
  intros H. apply andb_true_iff in H. destruct H as [Hc Hs].
  rewrite Hc. exact (IH Hs).
Qed.

Lemma rstrip_post (s post : string) :
  whitespace post = true -> PyStr.rstrip (s ++ post)%string = PyStr.rstrip s.
Proof.
  intros Hp. induction s as [|c s IH]; simpl.
  - apply rstrip_whitespace. exact Hp.
  - rewrite IH. reflexivity.
Qed.

Lemma strip_post (s post : string) :
  whitespace post = true -> PyStr.strip (s ++ post)%string = PyStr.strip s.
Proof.
  intros Hp. unfold PyStr.strip. induction s as [|c s IH].
  - change ("" ++ post)%string with post.
    rewrite (lstrip_whitespace post Hp). reflexivity.
  - change (String c s ++ post)%string with (String c (s ++ post)).
    cbn [PyStr.lstrip]. destruct (PyStr.isspace_char c); [exact IH|].
    apply (rstrip_post (String c s) post Hp).
Qed.

Lemma strip_pad (pre s post : string) :
  whitespace pre = true -> whitespace post = true ->
  PyStr.strip (pre ++ s ++ post)%string = PyStr.strip s.
Proof.
  intros Hpre Hpost. unfold PyStr.strip. rewrite (lstrip_pre pre _ Hpre).
  apply (strip_post s post Hpost).
Qed.

Lemma pad_same_stripped (pre post : string) (k : keystroke) :
  whitespace pre = true -> whitespace post = true -> same_stripped k (pad pre post k).
Proof.
  intros Hpre Hpost. split; [reflexivity|]. apply strip_pad; assumption.
Qed.

Lemma same_but_padding_refl (st : state) : same_but_padding st st.
Proof.
  repeat split. induction (stdin st); constructor; [split; reflexivity|assumption].
Qed.

Ltac sbp_solve :=
  unfold same_but_padding; simpl; repeat split; simpl;
  try congruence; try assumption; try exact (List.Forall2_nil _).

Lemma blind_ret {A : Type} (a : A) : blind_to_padding (ret a).
Proof. intros st st' H. split; [reflexivity|exact H]. Qed.

Lemma blind_lift {A : Type} (r : outcome A) : blind_to_padding (lift r).
Proof. intros st st' H. split; [reflexivity|exact H]. Qed.

Lemma blind_bind {A B : Type} (m : M A) (k : A -> M B) :
  blind_to_padding m -> (forall a, blind_to_padding (k a)) ->
  blind_to_padding (bind m k).
Proof.
  intros Hm Hk st st' H. unfold bind. destruct (Hm st st' H) as [E1 E2].
  destruct (m st) as [[a|e] s1], (m st') as [[a'|e'] s1']; simpl in *;
    try discriminate.
  - injection E1 as ->. apply Hk. exact E2.
  - injection E1 as ->. split; [reflexivity|exact E2].
Qed.

Lemma blind_print (e : event) : blind_to_padding (print e).
Proof.
  intros st st' (Hh & Hf & Hd & Hn & Ho & Hk). split; [reflexivity|]. sbp_solve.
Qed.

Lemma blind_print_all (es : list event) : blind_to_padding (print_all es).
Proof.
  induction es as [|e es IH]; simpl; [apply blind_ret|].
  apply blind_bind; [apply blind_print|intros _; exact IH].
Qed.

Lemma blind_deref (l : loc) : blind_to_padding (deref l).
Proof.
  intros st st' H. unfold deref. simpl. destruct H as (Hh & H).
  rewrite Hh. split; [reflexivity|]. split; assumption.
Qed.

Lemma blind_list_copy (l : loc) : blind_to_padding (list_copy l).
Proof.
  intros st st' (Hh & Hf & Hd & Hn & Ho & Hk). unfold list_copy. simpl.
  rewrite Hh. split; [reflexivity|]. sbp_solve.
Qed.

Lemma blind_shuffle_at (entropy : nat -> nat) (l : loc) :
  blind_to_padding (shuffle_at entropy l).
Proof.
  intros st st' (Hh & Hf & Hd & Hn & Ho & Hk). unfold shuffle_at.
  rewrite Hh, Hn. destruct (shuffle_from _ _ _ _) as [x' n]. simpl.
  split; [reflexivity|]. sbp_solve.
Qed.

Lemma blind_shuffle (entropy : nat -> nat) {A : Type} (x : list A) :
  blind_to_padding (shuffle entropy x).
Proof.
  intros st st' (Hh & Hf & Hd & Hn & Ho & Hk). unfold shuffle.
  rewrite Hn. destruct (shuffle_from _ _ _ _) as [x' n]. simpl.
  split; [reflexivity|]. sbp_solve.
Qed.

Lemma blind_save_score (e : Entry) : blind_to_padding (save_score e).
Proof.
  intros st st' (Hh & Hf & Hd & Hn & Ho & Hk).
  unfold save_score, bind, load_scores. rewrite Hf.
  destruct (scores_file st) eqn:F; simpl; rewrite Hd; destruct (disk st) eqn:D; simpl;
    (split; [reflexivity|]); sbp_solve.
Qed.

Lemma blind_record_outcome (qu : Question) (ch : option string) (c : bool)
    (sc : Z) (ds : list Detail) :
  blind_to_padding (record_outcome qu ch c sc ds).
Proof.
  unfold record_outcome. destruct c;
    (apply blind_bind; [apply blind_print|intros _; apply blind_ret]).
Qed.

(** Both ways to acquire an answer give the stripped text: the answer
    read does not depend on the whitespace typed around it. *)
Lemma blind_get_answer (windows timed : bool) (t : nat) (n : Z) :
  blind_to_padding (get_answer windows timed t n).
Proof.
  intros [h f d kb n0 o] [h' f' d' kb' n0' o'] (Hh & Hf & Hd & Hn & Ho & Hk).
  simpl in *. subst h' f' d' n0' o'.
  unfold get_answer, timed_input, input, bind, print, ret.
  destruct Hk as [|k k' ks ks' [Hdel Hstr] Hks];
    destruct timed; [destruct windows| |destruct windows|]; simpl;
    try (split; [reflexivity|]; sbp_solve; fail);
    try (rewrite Hstr; split; [reflexivity|]; sbp_solve; fail).
  rewrite Hdel. destruct ((t =? 0)%nat || (delay k <? t)%nat); simpl.
  - rewrite Hstr. split; [reflexivity|]. sbp_solve.
  - split; [reflexivity|]. sbp_solve.
    constructor; [split; simpl; congruence|assumption].
Qed.

Lemma blind_quiz_loop (windows : bool) (entropy : nat -> nat) (timed : bool)
    (t : nat) (tot : Z) (pool : list Question) :
  forall (i sc : Z) (ds : list Detail),
    blind_to_padding (quiz_loop windows entropy timed t tot i pool sc ds).
Proof.
  induction pool as [|qu pool IH]; intros i sc ds; simpl; [apply blind_ret|].
  apply blind_bind; [apply blind_list_copy|intros l].
  apply blind_bind; [apply blind_shuffle_at|intros _].
  apply blind_bind; [apply blind_deref|intros chs].
  apply blind_bind; [apply blind_print|intros _].
  apply blind_bind; [apply blind_print_all|intros _].
  apply blind_bind; [apply blind_get_answer|intros uc].
  apply blind_bind; [apply blind_lift|intros r].
  apply blind_bind; [apply blind_record_outcome|intros sd].
  apply IH.
Qed.

Lemma blind_run_quiz (windows : bool) (entropy : nat -> nat) (now : string)
    (QUESTIONS : list Question) (usr wanted : string) (timed : bool) (t : nat)
    (nq : option Z) :
  blind_to_padding (run_quiz windows entropy now QUESTIONS usr wanted timed t nq).
Proof.
  unfold run_quiz. apply blind_bind.
  - unfold play_quiz. destruct (List.filter _ QUESTIONS) as [|q0 pool].
    + apply blind_bind; [apply blind_print|intros _; apply blind_ret].
    + apply blind_bind; [apply blind_shuffle|intros pool'].
      apply blind_bind; [apply blind_print|intros _].
      apply blind_bind; [apply blind_quiz_loop|intros sd].
      apply blind_bind; [apply blind_lift|intros p].
      apply blind_bind; [apply blind_print|intros _].
      apply blind_bind; [apply blind_print|intros _].
      apply blind_bind; [apply blind_print|intros _].
      apply blind_bind; [apply blind_lift|intros a].
      apply blind_bind; [apply blind_print|intros _].
      apply blind_ret.
  - intros [entry|]; [|apply blind_ret].
    apply blind_bind; [apply blind_save_score|intros _].
    apply blind_bind; [apply blind_print|intros _; apply blind_ret].
Qed.

Lemma padded_same_stripped (kb kb' : list keystroke) :
  padded kb kb' -> Forall2 same_stripped kb kb'.
Proof.
  intros H. induction H as [|k k' ks ks' (pre & post & Hpre & Hpost & ->) _ IH];
    constructor; [apply pad_same_stripped; assumption|exact IH].
Qed.

(** C10. The answer is stripped before it is validated, on the timed and
    on the untimed path alike: a line typed with whitespace before and
    after it is validated to the same chosen text and verdict as the line
    itself, and a whole session run on padded lines has the same outcome,
    prints the same and leaves the same score file as the session run on
    the lines themselves. *)
Theorem padding_is_ignored (windows : bool) (entropy : nat -> nat) (now : string)
    (QUESTIONS : list Question) (usr wanted : string) (timed : bool) (t : nat)
    (nq : option Z) (st : state) (kb kb' : list keystroke)
    (chs : list string) (ans : string) :
  padded kb kb' ->
  fst (answer_question windows timed t chs ans (set_stdin kb' st))
  = fst (answer_question windows timed t chs ans (set_stdin kb st))
  /\ fst (run_quiz windows entropy now QUESTIONS usr wanted timed t nq (set_stdin kb' st))
     = fst (run_quiz windows entropy now QUESTIONS usr wanted timed t nq (set_stdin kb st))
  /\ stdout (snd (run_quiz windows entropy now QUESTIONS usr wanted timed t nq
                    (set_stdin kb' st)))
     = stdout (snd (run_quiz windows entropy now QUESTIONS usr wanted timed t nq
                      (set_stdin kb st)))
  /\ scores_file (snd (run_quiz windows entropy now QUESTIONS usr wanted timed t nq
                         (set_stdin kb' st)))
     = scores_file (snd (run_quiz windows entropy now QUESTIONS usr wanted timed t nq
                           (set_stdin kb st))).
Proof.
  intros H. apply padded_same_stripped in H.
  assert (same_but_padding (set_stdin kb st) (set_stdin kb' st)) as S
    by (repeat split; exact H).
  split.
  - apply (blind_bind _ _ (blind_get_answer windows timed t (len chs))
             (fun uc => blind_lift _) _ _ S).
  - destruct (blind_run_quiz windows entropy now QUESTIONS usr wanted timed t nq _ _ S)
      as (E & _ & Hf & _ & _ & Ho & _).
    split; [exact E|]. split; [exact Ho|exact Hf].
Qed.

Lemma padding_is_ignored_witness :
  fst (answer_question false true 15 ["B"; "A"; "C"; "D"] "A"
         (set_stdin [ {| text := " 2 "; delay := 1 |} ] (fresh_state Writable [])))
  = Ok (Some "A", true)
  /\ fst (sample_run Writable "hard" false None (typing [" 3"; "x  "]))
     = fst (sample_run Writable "hard" false None (typing ["3"; "x"])).
Proof.
  assert (padded (typing ["3"; "x"]) (typing [" 3"; "x  "])) as P2.
  { constructor; [exists " ", ""; repeat split|].
    constructor; [exists "", "  "; repeat split|constructor]. }
  assert (padded [ {| text := "2"; delay := 1 |} ] [ {| text := " 2 "; delay := 1 |} ]) as P1.
  { constructor; [exists " ", " "; repeat split|constructor]. }
  split.
  - exact (proj1 (padding_is_ignored false (fun n => n) "" [] "" "" true 15 None
                    (fresh_state Writable []) _ _ ["B"; "A"; "C"; "D"] "A" P1)).
  - exact (proj1 (proj2 (padding_is_ignored false (fun n => n) "2026-01-01T00:00:00"
                           sample_QUESTIONS "ann" "hard" false 15 None
                           (fresh_state Writable []) _ _ [] "" P2))).
Defined.

(** ** The order of floats *)

Lemma SFltb_rank (f1 f2 : spec_float) :
  f1 <> S754_nan -> f2 <> S754_nan ->
  (SFltb f1 f2 = true <-> lex_lt (sf_rank f1) (sf_rank f2)).
Proof.
  intros H1 H2. unfold SFltb, lex_lt.
  destruct f1 as [s1|s1| |s1 m1 e1], f2 as [s2|s2| |s2 m2 e2]; try contradiction;
    try destruct s1; try destruct s2; simpl;
    try (split; [discriminate|lia]); try (split; [lia|reflexivity]).
  - destruct (Z.compare_spec e1 e2); simpl.
    all: try (split; [discriminate|lia]); try (split; [lia|reflexivity]).
    change (Pos.compare_cont Eq m1 m2) with (Pos.compare m1 m2).
    destruct (Pos.compare_spec m1 m2); simpl; split; try discriminate; try lia;
      reflexivity.
  - destruct (Z.compare_spec e1 e2); simpl.
    all: try (split; [discriminate|lia]); try (split; [lia|reflexivity]).
    change (Pos.compare_cont Eq m1 m2) with (Pos.compare m1 m2).
    destruct (Pos.compare_spec m1 m2); simpl; split; try discriminate; try lia;
      reflexivity.
Qed.

Lemma ordered_not_nan (x : float) : ordered x -> Prim2SF x <> S754_nan.
Proof.
  unfold ordered. rewrite FloatAxioms.eqb_spec. intros H E. rewrite E in H. discriminate.
Qed.

Lemma ltb_rank (x y : float) :
  ordered x -> ordered y ->
  (PrimFloat.ltb x y = true <-> lex_lt (sf_rank (Prim2SF x)) (sf_rank (Prim2SF y))).
Proof.
  intros Hx Hy. rewrite FloatAxioms.ltb_spec.
  apply SFltb_rank; apply ordered_not_nan; assumption.
Qed.

Lemma ltb_false_rank (x y : float) :
  ordered x -> ordered y ->
  (PrimFloat.ltb x y = false <-> ~ lex_lt (sf_rank (Prim2SF x)) (sf_rank (Prim2SF y))).
Proof.
  intros Hx Hy. rewrite <- (ltb_rank x y Hx Hy).
  destruct (PrimFloat.ltb x y); split; intros; congruence.
Qed.

Lemma float_lt_irrefl (x : float) : ordered x -> PrimFloat.ltb x x = false.
Proof.
  intros Hx. apply (ltb_false_rank x x Hx Hx). unfold lex_lt. lia.
Qed.

Lemma float_lt_trans (x y z : float) :
  ordered x -> ordered y -> ordered z ->
  PrimFloat.ltb x y = true -> PrimFloat.ltb y z = true -> PrimFloat.ltb x z = true.
Proof.
  intros Hx Hy Hz. rewrite !ltb_rank by assumption. unfold lex_lt. lia.
Qed.

Lemma float_lt_neg_trans (x y z : float) :
  ordered x -> ordered y -> ordered z ->
  PrimFloat.ltb x y = false -> PrimFloat.ltb y z = false -> PrimFloat.ltb x z = false.
Proof.
  intros Hx Hy Hz. rewrite !ltb_false_rank by assumption. unfold lex_lt. lia.
Qed.

Lemma SFleb_rank (f1 f2 : spec_float) :
  f1 <> S754_nan -> f2 <> S754_nan ->
  (SFleb f1 f2 = true <-> ~ lex_lt (sf_rank f2) (sf_rank f1)).
Proof.
  intros H1 H2. unfold SFleb, lex_lt.
  destruct f1 as [s1|s1| |s1 m1 e1], f2 as [s2|s2| |s2 m2 e2]; try contradiction;
    try destruct s1; try destruct s2; simpl;
    try (split; [discriminate|lia]); try (split; [lia|reflexivity]).
  - destruct (Z.compare_spec e1 e2); simpl.
    all: try (split; [discriminate|lia]); try (split; [lia|reflexivity]).
    change (Pos.compare_cont Eq m1 m2) with (Pos.compare m1 m2).
    destruct (Pos.compare_spec m1 m2); simpl; split; try discriminate; try lia;
      reflexivity.
  - destruct (Z.compare_spec e1 e2); simpl.
    all: try (split; [discriminate|lia]); try (split; [lia|reflexivity]).
    change (Pos.compare_cont Eq m1 m2) with (Pos.compare m1 m2).
    destruct (Pos.compare_spec m1 m2); simpl; split; try discriminate; try lia;
      reflexivity.
Qed.

(** On floats other than NaN, [x < y] fails exactly when [y <= x]. *)
Lemma float_not_lt_ge (x y : float) :
  ordered x -> ordered y ->
  (PrimFloat.ltb x y = false <-> PrimFloat.leb y x = true).
Proof.
  intros Hx Hy. rewrite (ltb_false_rank x y Hx Hy), FloatAxioms.leb_spec.
  symmetry. apply SFleb_rank; apply ordered_not_nan; assumption.
Qed.

(** ** Sorting *)

Lemma StronglySorted_rev {A : Type} (R : A -> A -> Prop) (l : list A) :
  StronglySorted R l -> StronglySorted (fun a b => R b a) (rev l).
Proof.
  induction 1 as [|x l Hl IH Hx]; simpl; [constructor|].
  apply StronglySorted_app_2; [|exact IH|repeat constructor].
  intros x1 x2 H1 H2. apply list_elem_of_singleton in H2. subst x2.
  rewrite Forall_forall in Hx. apply Hx. apply list_elem_of_In, in_rev.
  apply list_elem_of_In. exact H1.
Qed.

Lemma StronglySorted_weaken {A : Type} (P : A -> Prop) (R R' : A -> A -> Prop) (l : list A) :
  (forall a b, P a -> P b -> R a b -> R' a b) ->
  Forall P l -> StronglySorted R l -> StronglySorted R' l.
Proof.
  intros HR HP Hs. induction Hs as [|x l Hs IH Hx]; [constructor|].
  apply Forall_cons in HP. destruct HP as [Px Pl].
  constructor; [apply IH; exact Pl|].
  rewrite Forall_forall in *. intros y Hy. apply HR; auto.
Qed.

Section StableSort.
Context {A K : Type}.
Variable key : A -> K.
Variable lt : K -> K -> bool.
Variable ok : K -> Prop.
Hypothesis lt_irrefl : forall x, ok x -> lt x x = false.
Hypothesis lt_trans :
  forall x y z, ok x -> ok y -> ok z -> lt x y = true -> lt y z = true -> lt x z = true.
Hypothesis lt_neg_trans :
  forall x y z, ok x -> ok y -> ok z -> lt x y = false -> lt y z = false -> lt x z = false.

Let okk (a : A) : Prop := ok (key a).
Let asc (a b : A) : Prop := lt (key b) (key a) = false.

Lemma insert_sorted_perm (x : A) (l : list A) :
  Permutation (insert_sorted key lt x l) (x :: l).
Proof.
  induction l as [|y l IH]; simpl; [reflexivity|].
  destruct (lt (key y) (key x)); [|reflexivity].
  rewrite IH. apply perm_swap.
Qed.

Lemma stable_sort_perm (l : list A) : Permutation (stable_sort key lt l) l.
Proof.
  induction l as [|x l IH]; simpl; [reflexivity|].
  rewrite insert_sorted_perm, IH. reflexivity.
Qed.

Lemma lt_asym (x y : K) : ok x -> ok y -> lt x y = true -> lt y x = false.
Proof.
  intros Hx Hy H. destruct (lt y x) eqn:E; [|reflexivity].
  pose proof (lt_trans x y x Hx Hy Hx H E) as C.
  rewrite (lt_irrefl x Hx) in C. discriminate.
Qed.

Lemma insert_sorted_asc (x : A) (l : list A) :
  okk x -> Forall okk l ->
  StronglySorted asc l -> StronglySorted asc (insert_sorted key lt x l).
Proof.
  intros Hx Hl Hs. induction Hs as [|y l Hs IH Hy]; simpl.
  - repeat constructor.
  - apply Forall_cons in Hl. destruct Hl as [Hoy Hl].
    destruct (lt (key y) (key x)) eqn:E.
    + constructor; [apply IH; exact Hl|].
      rewrite (insert_sorted_perm x l). constructor; [|exact Hy].
      apply lt_asym; assumption.
    + constructor; [constructor; assumption|].
      constructor; [exact E|].
      rewrite Forall_forall in *. intros z Hz.
      apply (lt_neg_trans (key z) (key y) (key x));
        [apply Hl; exact Hz|assumption|assumption|apply Hy; exact Hz|exact E].
Qed.

Lemma stable_sort_asc (l : list A) :
  Forall okk l -> StronglySorted asc (stable_sort key lt l).
Proof.
  induction l as [|x l IH]; simpl; intros H; [constructor|].
  apply Forall_cons in H. destruct H as [Hx Hl].
  apply insert_sorted_asc; [exact Hx| |apply IH; exact Hl].
  rewrite stable_sort_perm. exact Hl.
Qed.

Lemma insert_sorted_tied (k : K) (x : A) (l : list A) :
  ok k -> okk x -> Forall okk l ->
  List.filter (tied key lt k) (insert_sorted key lt x l)
  = List.filter (tied key lt k) (x :: l).
Proof.
  intros Hk Hx Hl. induction l as [|y l IH]; [reflexivity|].
  apply Forall_cons in Hl. destruct Hl as [Hy Hl]. specialize (IH Hl).
  cbn [insert_sorted]. destruct (lt (key y) (key x)) eqn:E; [|reflexivity].
  cbn [List.filter] in *. rewrite IH.
  destruct (tied key lt k x) eqn:Tx, (tied key lt k y) eqn:Ty; try reflexivity.
  unfold tied in Tx, Ty.
  apply andb_true_iff in Tx, Ty. destruct Tx as [Tx _], Ty as [_ Ty].
  apply negb_true_iff in Tx, Ty.
  rewrite (lt_neg_trans (key y) k (key x) Hy Hk Hx Ty Tx) in E. discriminate.
Qed.

Lemma stable_sort_tied (k : K) (l : list A) :
  ok k -> Forall okk l ->
  List.filter (tied key lt k) (stable_sort key lt l) = List.filter (tied key lt k) l.
Proof.
  intros Hk. induction l as [|x l IH]; intros H; [reflexivity|].
  apply Forall_cons in H. destruct H as [Hx Hl]. cbn [stable_sort].
  rewrite insert_sorted_tied; [|exact Hk|exact Hx|rewrite stable_sort_perm; exact Hl].
  cbn [List.filter]. rewrite (IH Hl). reflexivity.
Qed.

(** [sorted(l, key=key, reverse=True)] rearranges [l] into descending
    order of the keys and keeps tied elements in their order in [l]. *)
Lemma sorted_reverse_spec (l : list A) :
  Forall okk l ->
  Permutation (sorted_reverse key lt l) l
  /\ descending key lt (sorted_reverse key lt l)
  /\ forall k, ok k ->
       List.filter (tied key lt k) (sorted_reverse key lt l)
       = List.filter (tied key lt k) l.
Proof.
  intros Hl. unfold sorted_reverse.
  assert (Forall okk (rev l)) as Hr.
  { rewrite Forall_forall in *. intros x Hx. apply Hl.
    apply list_elem_of_In, in_rev, list_elem_of_In. exact Hx. }
  split; [|split].
  - rewrite <- Permutation_rev, stable_sort_perm. symmetry. apply Permutation_rev.
  - apply (StronglySorted_rev asc). apply stable_sort_asc. exact Hr.
  - intros k Hk. rewrite List.filter_rev, (stable_sort_tied k _ Hk Hr).
    rewrite List.filter_rev. apply rev_involutive.
Qed.
End StableSort.

(** ** The leaderboard *)

Lemma print_all_spec (es : list event) (st : state) :
  print_all es st = (Ok tt, set_stdout (stdout st ++ es) st).
Proof.
  revert st. induction es as [|e es IH]; intros st; simpl.
  - unfold ret. rewrite app_nil_r. destruct st; reflexivity.
  - unfold bind, print. rewrite IH. simpl. rewrite <- app_assoc. reflexivity.
Qed.

(** What [show_leaderboard] prints for a store that holds records: the
    header, then the rows of [top_rows], numbered from 1. *)
Lemma show_leaderboard_prints (top_n : Z) (st : state) (e : Entry) (data : list Entry) :
  scores_file st = Stored (e :: data) ->
  show_leaderboard top_n st =
    (Ok tt,
     set_stdout
       (stdout st ++
        LeaderboardHeader (Z.min top_n (len (e :: data)))
        :: map (fun '(i, r) => LeaderboardRow i r (timestamp r))
               (enumerate 1 (top_rows top_n (e :: data))))
       st).
Proof.
  intros H.
  assert (length (sorted_reverse percentage PrimFloat.ltb (e :: data))
          = length (e :: data)) as L.
  { unfold sorted_reverse. rewrite length_rev.
    rewrite (Permutation_length (stable_sort_perm percentage PrimFloat.ltb _)).
    apply length_rev. }
  unfold show_leaderboard, bind, load_scores. rewrite H.
  unfold print. rewrite print_all_spec. simpl stdout. rewrite <- app_assoc.
  unfold top_rows, len. rewrite L. reflexivity.
Qed.

Lemma slice_to_take {A : Type} (n : Z) (l : list A) :
  (0 <= n)%Z -> slice_to n l = take (Z.to_nat n) l.
Proof.
  intros H. unfold slice_to. destruct (Z.ltb_spec n 0); [lia|reflexivity].
Qed.

(** C5. For a leaderboard without NaN percentages and a count [n >= 0],
    the rows shown are the first [n] (all of them when there are fewer) of
    a rearrangement of the records in which every record has a percentage
    at least as large as each record after it, and in which the records
    with any one percentage are in their insertion order. On percentages
    50, 90, 90, 30 and [n = 2] they are the second record, then the
    third. *)
Theorem top_rows_ranked :
  (forall (top_n : Z) (data : list Entry),
      Forall (fun e => ordered (percentage e)) data ->
      (0 <= top_n)%Z ->
      top_rows top_n data
      = take (Z.to_nat top_n) (sorted_reverse percentage PrimFloat.ltb data)
      /\ (len (top_rows top_n data) <= top_n)%Z
      /\ Permutation (sorted_reverse percentage PrimFloat.ltb data) data
      /\ StronglySorted (fun a b => PrimFloat.leb (percentage b) (percentage a) = true)
           (sorted_reverse percentage PrimFloat.ltb data)
      /\ forall p, ordered p ->
           List.filter (tied percentage PrimFloat.ltb p)
             (sorted_reverse percentage PrimFloat.ltb data)
           = List.filter (tied percentage PrimFloat.ltb p) data)
  /\ map percentage example_board = map float_of_int [50; 90; 90; 30]%Z
  /\ top_rows 2 example_board = [sample_entry "second" 90 100; sample_entry "third" 90 100].
Proof.
  split; [|split; vm_compute; reflexivity].
  intros top_n data Hok Hn.
  destruct (sorted_reverse_spec percentage PrimFloat.ltb ordered
              float_lt_irrefl float_lt_trans float_lt_neg_trans data Hok)
    as (Hperm & Hdesc & Hstable).
  unfold top_rows. rewrite (slice_to_take top_n _ Hn).
  split; [reflexivity|]. split; [unfold len; rewrite length_take; lia|].
  split; [exact Hperm|]. split; [|exact Hstable].
  apply (StronglySorted_weaken (fun e => ordered (percentage e))
           (fun a b => PrimFloat.ltb (percentage a) (percentage b) = false)).
  - intros a b Ha Hb. apply float_not_lt_ge; assumption.
  - rewrite Hperm. exact Hok.
  - exact Hdesc.
Qed.

Lemma top_rows_ranked_witness :
  top_rows 3 example_board
  = take 3 (sorted_reverse percentage PrimFloat.ltb example_board)
  /\ (len (top_rows 3 example_board) <= 3)%Z
  /\ Permutation (sorted_reverse percentage PrimFloat.ltb example_board) example_board
  /\ StronglySorted (fun a b => PrimFloat.leb (percentage b) (percentage a) = true)
       (sorted_reverse percentage PrimFloat.ltb example_board)
  /\ forall p, ordered p ->
       List.filter (tied percentage PrimFloat.ltb p)
         (sorted_reverse percentage PrimFloat.ltb example_board)
       = List.filter (tied percentage PrimFloat.ltb p) example_board.
Proof.
  apply (proj1 top_rows_ranked 3%Z example_board).
  - repeat constructor.
  - lia.
Defined.

(** ** More on the answer validation *)

Lemma text_match_some (t ans : string) (chs : list string) (ch : string) (c : bool) :
  text_match t ans chs None false = (Some ch, c) ->
  In ch chs /\ c = String.eqb ch ans.
Proof.
  rewrite text_match_first. destruct (List.find _ chs) as [x|] eqn:F; [|discriminate].
  intros H. inversion H; subst. apply List.find_some in F. tauto.
Qed.

(** The chosen text is always one of the options shown, the answer is
    marked correct exactly when the chosen text is the answer, and never
    when nothing was chosen. *)
Theorem resolve_sound (uc : option string) (chs : list string) (ans : string)
    (chosen : option string) (c : bool) :
  resolve uc chs ans = Ok (chosen, c) ->
  match chosen with
  | Some ch => In ch chs /\ (c = true <-> ch = ans)
  | None => c = false
  end.
Proof.
  intros H. destruct chosen as [ch|]; [|exact (resolve_none_incorrect _ _ _ _ H)].
  revert H. unfold resolve. destruct uc as [u|]; [|discriminate].
  destruct (PyStr.truthy u && PyStr.isdigit u).
  - destruct (PyStr.int u) as [k|]; [|discriminate].
    destruct ((0 <=? k - 1)%Z && (k - 1 <? Z.of_nat (length chs))%Z); [|discriminate].
    destruct (chs !! Z.to_nat (k - 1)) as [x|] eqn:L; [|discriminate].
    intros H. inversion H; subst. split; [|apply String.eqb_eq].
    apply list_elem_of_In. exact (list_elem_of_lookup_2 _ _ _ L).
  - destruct (PyStr.truthy u); [|discriminate].
    intros H. inversion H as [H1]. apply text_match_some in H1.
    destruct H1 as [Hin ->]. split; [exact Hin|apply String.eqb_eq].
Qed.

Lemma resolve_sound_witness :
  In "MongoDB" ["MySQL"; "MongoDB"] /\ (true = true <-> "MongoDB" = "MongoDB").
Proof.
  apply (resolve_sound (Some "MONGODB") ["MySQL"; "MongoDB"] "MongoDB" (Some "MongoDB") true).
  reflexivity.
Defined.

Lemma resolve_raise_inv (uc : option string) (chs : list string) (ans : string) (e : exn) :
  resolve uc chs ans = Raise e ->
  e = ValueError
  /\ exists u, uc = Some u /\ PyStr.isdigit u = true /\ PyStr.int u = None.
Proof.
  unfold resolve. destruct uc as [u|]; [|discriminate].
  destruct (PyStr.truthy u) eqn:Ht; simpl; [|discriminate].
  destruct (PyStr.isdigit u) eqn:Hd; [|discriminate].
  destruct (PyStr.int u) as [k|] eqn:Hi.
  - destruct ((0 <=? k - 1)%Z && (k - 1 <? Z.of_nat (length chs))%Z) eqn:B;
      [|discriminate].
    apply andb_true_iff in B. destruct B as [B1 B2].
    apply Z.leb_le in B1. apply Z.ltb_lt in B2.
    destruct (lookup_lt_is_Some_2 chs (Z.to_nat (k - 1))) as [x Hx]; [lia|].
    rewrite Hx. discriminate.
  - intros H. inversion H. split; [reflexivity|]. exists u. auto.
Qed.

(** The validation raises nothing but [ValueError], and that exactly on an
    input that [isdigit] accepts and [int] refuses; the index it computes
    is always within the list. *)
Theorem resolve_raises (uc : option string) (chs : list string) (ans : string) (e : exn) :
  resolve uc chs ans = Raise e <->
  e = ValueError
  /\ exists u, uc = Some u /\ PyStr.isdigit u = true /\ PyStr.int u = None.
Proof.
  split; [apply resolve_raise_inv|].
  intros (-> & u & -> & Hd & Hi). unfold resolve.
  rewrite Hd, (isdigit_truthy u Hd), Hi. reflexivity.
Qed.

Lemma lower_char_digit_fixed (c : ascii) :
  PyStr.isdigit_char c = true -> PyStr.lower_char c = c.
Proof.
  destruct c as [b0 b1 b2 b3 b4 b5 b6 b7].
  destruct b0, b1, b2, b3, b4, b5, b6, b7; intros H; try reflexivity; discriminate H.
Qed.

Lemma lower_digits_fixed (s : string) :
  PyStr.all_chars PyStr.isdigit_char s = true -> PyStr.lower s = s.
Proof.
  induction s as [|c s IH]; simpl; [reflexivity|].
  intros H. apply andb_true_iff in H. destruct H as [Hc Hs].
  rewrite (lower_char_digit_fixed c Hc), (IH Hs). reflexivity.
Qed.

Lemma lower_truthy (s : string) : PyStr.truthy (PyStr.lower s) = PyStr.truthy s.
Proof. destruct s; reflexivity. Qed.

(** Two inputs that differ only in the case of their letters are
    validated alike: same chosen text, same verdict, same error. *)
Theorem resolve_ignores_case (u u' : string) (chs : list string) (ans : string) :
  PyStr.lower u = PyStr.lower u' ->
  resolve (Some u) chs ans = resolve (Some u') chs ans.
Proof.
  intros E.
  assert (PyStr.isdigit u = PyStr.isdigit u') as Hd
    by (rewrite <- (lower_isdigit u), E; apply lower_isdigit).
  assert (PyStr.truthy u = PyStr.truthy u') as Ht
    by (rewrite <- (lower_truthy u), E; apply lower_truthy).
  destruct (PyStr.isdigit u) eqn:D.
  - assert (u = u') as ->; [|reflexivity].
    symmetry in Hd. unfold PyStr.isdigit in D, Hd.
    apply andb_true_iff in D, Hd. destruct D as [_ D], Hd as [_ Hd].
    rewrite <- (lower_digits_fixed u D), <- (lower_digits_fixed u' Hd). exact E.
  - unfold resolve. rewrite <- Hd, D, <- Ht, E, !andb_false_r. reflexivity.
Qed.

Lemma resolve_ignores_case_witness :
  resolve (Some "merge SORT") ["Bubble sort"; "Merge sort"] "Merge sort"
  = resolve (Some "MERGE sort") ["Bubble sort"; "Merge sort"] "Merge sort".
Proof.
  apply (resolve_ignores_case "merge SORT" "MERGE sort"). reflexivity.
Defined.

(** ** The detail log *)

Lemma resolve_correct_chosen (uc : option string) (chs : list string) (ans : string)
    (chosen : option string) :
  resolve uc chs ans = Ok (chosen, true) -> chosen = Some ans.
Proof.
  unfold resolve. destruct uc as [u|]; [|discriminate].
  destruct (PyStr.truthy u && PyStr.isdigit u).
  - destruct (PyStr.int u) as [k|]; [|discriminate].
    destruct ((0 <=? k - 1)%Z && (k - 1 <? Z.of_nat (length chs))%Z); [|discriminate].
    destruct (chs !! Z.to_nat (k - 1)) as [x|]; [|discriminate].
    intros H. inversion H as [[H1 H2]]. apply String.eqb_eq in H2. congruence.
  - destruct (PyStr.truthy u); [|discriminate].
    intros H. inversion H as [H1]. destruct chosen as [ch|].
    + apply text_match_some in H1. destruct H1 as [_ H1].
      symmetry in H1. apply String.eqb_eq in H1. congruence.
    + apply text_match_none in H1. discriminate.
Qed.

Lemma chosen_or_default_truthy (chosen : option string) :
  PyStr.truthy (chosen_or_default chosen) = true.
Proof.
  unfold chosen_or_default. destruct chosen as [s|]; [|reflexivity].
  destruct (PyStr.truthy s) eqn:E; [exact E|reflexivity].
Qed.

Lemma record_outcome_logged (qu : Question) (uc : option string) (chs : list string)
    (r : option string * bool) (sc : Z) (ds : list Detail) (st st' : state)
    (sd : Z * list Detail) :
  resolve uc chs (answer qu) = Ok r ->
  record_outcome qu (fst r) (snd r) sc ds st = (Ok sd, st') ->
  exists d, snd sd = ds ++ [d] /\ logged qu d.
Proof.
  destruct r as [chosen c]. simpl. intros Hr. unfold record_outcome. destruct c.
  - apply resolve_correct_chosen in Hr. subst chosen.
    intros H. inv_bind H. inversion H; subst. eexists. split; [reflexivity|].
    repeat split. left. split; reflexivity.
  - intros H. inv_bind H. inversion H; subst. eexists. split; [reflexivity|].
    repeat split. right. split; [reflexivity|].
    eexists. split; [reflexivity|apply chosen_or_default_truthy].
Qed.

Lemma quiz_loop_logged (windows : bool) (entropy : nat -> nat) (timed : bool)
    (t : nat) (tot : Z) (pool : list Question) :
  forall (i sc : Z) (ds : list Detail) (st st' : state) (sd : Z * list Detail),
    quiz_loop windows entropy timed t tot i pool sc ds st = (Ok sd, st') ->
    exists new, snd sd = ds ++ new /\ Forall2 logged pool new.
Proof.
  induction pool as [|qu pool IH]; intros i sc ds st st' sd H; simpl in H.
  - inversion H; subst. exists []. simpl. rewrite app_nil_r. split; [reflexivity|constructor].
  - bind_inv H as l s1 H1. bind_inv H as u2 s2 H2. bind_inv H as chs s3 H3.
    bind_inv H as u4 s4 H4. bind_inv H as u5 s5 H5. bind_inv H as uc s6 H6.
    bind_inv H as r s7 H7. bind_inv H as sd1 s8 H8.
    apply lift_ok in H7. destruct H7 as [Hr ->].
    destruct (record_outcome_logged _ _ _ _ _ _ _ _ _ Hr H8) as (d & Hd & Hlog).
    apply IH in H. destruct H as (new & Hn & Hall).
    exists (d :: new). rewrite Hn, Hd, <- app_assoc. split; [reflexivity|].
    constructor; assumption.
Qed.

Lemma play_quiz_logged (windows : bool) (entropy : nat -> nat) (now : string)
    (QUESTIONS : list Question) (usr wanted : string) (timed : bool) (t : nat)
    (nq : option Z) (st st' : state) (e : Entry) :
  play_quiz windows entropy now QUESTIONS usr wanted timed t nq st = (Ok (Some e), st') ->
  exists shuffled,
    Permutation shuffled (List.filter (matches_difficulty wanted) QUESTIONS)
    /\ Forall2 logged
         match nq with
         | Some n => if (n =? 0)%Z then shuffled else slice_to n shuffled
         | None => shuffled
         end
         (details e).
Proof.
  unfold play_quiz. destruct (List.filter _ QUESTIONS) as [|q0 pool0].
  { intros H. inv_bind H. inversion H. }
  intros H. bind_inv H as pool1 s1 Hshuf. cbv zeta in H.
  bind_inv H as u2 s2 Hstart. bind_inv H as sd s3 Hloop.
  bind_inv H as p s4 Hp. bind_inv H as u5 s5 Hp5. bind_inv H as u6 s6 Hp6.
  bind_inv H as u7 s7 Hp7. bind_inv H as acc s8 Hacc. bind_inv H as u9 s9 Hp9.
  inversion H; subst e st'; clear H. simpl.
  apply quiz_loop_logged in Hloop. destruct Hloop as (new & Hn1 & Hall).
  simpl in Hn1. rewrite Hn1. exists pool1. split; [|exact Hall].
  exact (shuffle_perm entropy _ _ _ _ Hshuf).
Qed.

(** Every detail of a finished session's log either is marked correct and
    holds the correct answer as the user's, or is marked incorrect and
    holds a text that is not empty: never a null. *)
Theorem details_well_formed (windows : bool) (entropy : nat -> nat) (now : string)
    (QUESTIONS : list Question) (usr wanted : string) (timed : bool) (t : nat)
    (nq : option Z) (st st' : state) (e : Entry) :
  run_quiz windows entropy now QUESTIONS usr wanted timed t nq st = (Ok (Some e), st') ->
  Forall (fun d =>
            (result d = "correct" /\ your d = Some (correct d))
            \/ (result d = "incorrect"
                /\ exists s, your d = Some s /\ PyStr.truthy s = true))
         (details e).
Proof.
  intros H. apply run_quiz_ok in H. destruct H as (st1 & st2 & H & _).
  apply play_quiz_logged in H. destruct H as (sh & _ & Hall).
  induction Hall as [|qu d pool ds (Hq & Hc & Hv) _ IH]; constructor; [|exact IH].
  rewrite Hc. exact Hv.
Qed.

(** The questions of a finished session are the first ones of a
    rearrangement of the questions of the requested difficulty, each asked
    as often as the bank holds it, and the log names them and their
    answers in the order asked. *)
Theorem questions_asked (windows : bool) (entropy : nat -> nat) (now : string)
    (QUESTIONS : list Question) (usr wanted : string) (timed : bool) (t : nat)
    (nq : option Z) (st st' : state) (e : Entry) :
  run_quiz windows entropy now QUESTIONS usr wanted timed t nq st = (Ok (Some e), st') ->
  exists asked rest,
    Permutation (asked ++ rest) (List.filter (matches_difficulty wanted) QUESTIONS)
    /\ map question (details e) = map q asked
    /\ map correct (details e) = map answer asked
    /\ Forall (fun qu => matches_difficulty wanted qu = true) asked.
Proof.
  intros H. apply run_quiz_ok in H. destruct H as (st1 & st2 & H & _).
  apply play_quiz_logged in H. destruct H as (sh & Hperm & Hall).
  set (asked := match nq with
                | Some n => if (n =? 0)%Z then sh else slice_to n sh
                | None => sh
                end) in *.
  assert (exists rest, asked ++ rest = sh) as [rest Hrest].
  { subst asked. destruct nq as [n|]; [|exists []; apply app_nil_r].
    destruct (n =? 0)%Z; [exists []; apply app_nil_r|].
    unfold slice_to. destruct (n <? 0)%Z; eexists; apply take_drop. }
  exists asked, rest. rewrite Hrest. split; [exact Hperm|].
  assert (Forall (fun qu => matches_difficulty wanted qu = true) sh) as Hm.
  { rewrite Hperm. apply Forall_forall. intros x Hx.
    apply list_elem_of_In, List.filter_In in Hx. tauto. }
  rewrite <- Hrest in Hm. apply Forall_app in Hm. destruct Hm as [Hm _].
  repeat split; [| |exact Hm].
  - clear Hm Hrest. induction Hall as [|qu d pool ds (Hq & _) _ IH]; simpl;
      [reflexivity|congruence].
  - clear Hm Hrest. induction Hall as [|qu d pool ds (_ & Hc & _) _ IH]; simpl;
      [reflexivity|congruence].
Qed.

Lemma details_well_formed_witness :
  exists e st',
    sample_run Writable "hard" false None (typing ["3"; "x"]) = (Ok (Some e), st')
    /\ Forall (fun d =>
                 (result d = "correct" /\ your d = Some (correct d))
                 \/ (result d = "incorrect"
                     /\ exists s, your d = Some s /\ PyStr.truthy s = true))
              (details e).
Proof.
  eexists. eexists. split; [vm_compute; reflexivity|].
  eapply (details_well_formed false (fun n => n) "2026-01-01T00:00:00" sample_QUESTIONS
           "ann" "hard" false 15 None (fresh_state Writable (typing ["3"; "x"]))).
  vm_compute. reflexivity.
Defined.

Lemma questions_asked_witness :
  exists e st',
    sample_run Writable "medium" false (Some 2%Z) (typing ["1"; "2"]) = (Ok (Some e), st')
    /\ exists asked rest,
         Permutation (asked ++ rest)
           (List.filter (matches_difficulty "medium") sample_QUESTIONS)
         /\ map question (details e) = map q asked
         /\ map correct (details e) = map answer asked
         /\ Forall (fun qu => matches_difficulty "medium" qu = true) asked.
Proof.
  eexists. eexists. split; [vm_compute; reflexivity|].
  eapply (questions_asked false (fun n => n) "2026-01-01T00:00:00" sample_QUESTIONS
           "ann" "medium" false 15 (Some 2%Z)
           (fresh_state Writable (typing ["1"; "2"]))).
  vm_compute. reflexivity.
Defined.

(** ** The score file across a session *)

(** A session that returns a record has appended exactly that record to
    the records the store held, on a disk that took the write. *)
Theorem session_appends_its_record (windows : bool) (entropy : nat -> nat) (now : string)
    (QUESTIONS : list Question) (usr wanted : string) (timed : bool) (t : nat)
    (nq : option Z) (st st' : state) (e : Entry) (old : list Entry) :
  run_quiz windows entropy now QUESTIONS usr wanted timed t nq st = (Ok (Some e), st') ->
  fst (load_scores st) = Ok old ->
  fst (load_scores st') = Ok (old ++ [e])
  /\ disk st = Writable
  /\ user e = usr /\ timestamp e = now.
Proof.
  intros H Hold. apply run_quiz_ok in H. destruct H as (st1 & st2 & Hplay & Hsave & ->).
  pose proof (steps_play_quiz windows entropy now QUESTIONS usr wanted timed t nq st) as E.
  rewrite Hplay in E. destruct E as (_ & Hf & Hd & _). simpl in Hf, Hd.
  apply play_quiz_ok in Hplay. destruct Hplay as (_ & _ & _ & _ & Hu & Hn & _).
  apply save_score_ok in Hsave. destruct Hsave as [Hw ->].
  unfold load_scores in *. simpl. rewrite Hf.
  split; [|split; [congruence|split; assumption]].
  destruct (scores_file st); simpl in *; inversion Hold; reflexivity.
Qed.

Lemma session_appends_its_record_witness :
  exists e st',
    run_quiz false (fun n => n) "2026-01-02T10:00:00" sample_QUESTIONS "bob" "hard" false 15
      (Some 1%Z) (set_stdin (typing ["3"]) (stored_state [sample_entry "ann" 1 2]))
    = (Ok (Some e), st')
    /\ (fst (load_scores st') = Ok ([sample_entry "ann" 1 2] ++ [e])
        /\ Writable = Writable
        /\ user e = "bob" /\ timestamp e = "2026-01-02T10:00:00").
Proof.
  eexists. eexists. split; [vm_compute; reflexivity|].
  apply (session_appends_its_record false (fun n => n) "2026-01-02T10:00:00"
           sample_QUESTIONS "bob" "hard" false 15 (Some 1%Z)
           (set_stdin (typing ["3"]) (stored_state [sample_entry "ann" 1 2])));
    vm_compute; reflexivity.
Defined.

(** Whatever a session does and however it ends, the score file is as it
    was, unless the session returned a record (which is then appended) or
    the dump failed part-way (which leaves the file unreadable). *)
Theorem score_file_fate (windows : bool) (entropy : nat -> nat) (now : string)
    (QUESTIONS : list Question) (usr wanted : string) (timed : bool) (t : nat)
    (nq : option Z) (st : state) :
  scores_file (snd (run_quiz windows entropy now QUESTIONS usr wanted timed t nq st))
  = scores_file st
  \/ (exists e, fst (run_quiz windows entropy now QUESTIONS usr wanted timed t nq st)
                = Ok (Some e))
  \/ (fst (run_quiz windows entropy now QUESTIONS usr wanted timed t nq st) = Raise OSError
      /\ disk st = WriteFails
      /\ scores_file (snd (run_quiz windows entropy now QUESTIONS usr wanted timed t nq st))
         = Corrupt).
Proof.
  pose proof (steps_play_quiz windows entropy now QUESTIONS usr wanted timed t nq st) as E.
  destruct E as (_ & Hf & Hd & _). unfold run_quiz, bind.
  destruct (play_quiz _ _ _ _ _ _ _ _ _ st) as [[[e|]|ex] st1]; simpl in *;
    [|left; exact Hf|left; exact Hf].
  unfold save_score, bind, load_scores.
  destruct (scores_file st1) eqn:F; simpl; rewrite Hd; destruct (disk st) eqn:D; simpl;
    first [ right; left; eexists; reflexivity
          | left; congruence
          | right; right; repeat split ].
Qed.

(** ** How many questions, and how a session can fail *)

Lemma slice_to_len {A : Type} (n : Z) (l : list A) :
  len (slice_to n l)
  = if (n <? 0)%Z then Z.max 0 (len l + n) else Z.min n (len l).
Proof.
  unfold slice_to, len. destruct (Z.ltb_spec n 0); rewrite length_take; lia.
Qed.

(** A finished session asked every question of the requested difficulty
    when no count was given (or zero), the smaller of the count and their
    number for a positive count, and all but the last [-n] for a negative
    count [n]; its log has one detail per question. *)
Theorem session_length (windows : bool) (entropy : nat -> nat) (now : string)
    (QUESTIONS : list Question) (usr wanted : string) (timed : bool) (t : nat)
    (nq : option Z) (st st' : state) (e : Entry) :
  run_quiz windows entropy now QUESTIONS usr wanted timed t nq st = (Ok (Some e), st') ->
  total e = expected_total (len (List.filter (matches_difficulty wanted) QUESTIONS)) nq
  /\ len (details e) = total e.
Proof.
  intros H. apply run_quiz_ok in H. destruct H as (st1 & st2 & H & _).
  destruct (play_quiz_logged _ _ _ _ _ _ _ _ _ _ _ _ H) as (sh & Hperm & Hall).
  apply play_quiz_ok in H. destruct H as (_ & Ht & _ & Ha & _).
  destruct (accuracy_of_ok _ _ _ Ha) as [Hnz _].
  split; [|symmetry; exact Ht].
  apply Forall2_length in Hall. apply Permutation_length in Hperm.
  assert (len (details e)
          = len match nq with
                | Some n => if (n =? 0)%Z then sh else slice_to n sh
                | None => sh
                end) as L by (unfold len; rewrite Hall; reflexivity).
  rewrite Ht in Hnz |- *. rewrite L in Hnz |- *. unfold expected_total.
  assert (len sh = len (List.filter (matches_difficulty wanted) QUESTIONS)) as <-
    by (unfold len; rewrite Hperm; reflexivity).
  destruct nq as [n|]; [|reflexivity].
  destruct (n =? 0)%Z; [reflexivity|].
  rewrite slice_to_len in Hnz |- *. destruct (n <? 0)%Z; lia.
Qed.

Lemma session_length_witness :
  exists e st',
    sample_run Writable "easy" false (Some 3%Z) (typing ["1"; "2"; "3"]) = (Ok (Some e), st')
    /\ (total e = 3%Z /\ len (details e) = total e).
Proof.
  eexists. eexists. split; [vm_compute; reflexivity|].
  eapply (session_length false (fun n => n) "2026-01-01T00:00:00" sample_QUESTIONS
            "ann" "easy" false 15 (Some 3%Z)
            (fresh_state Writable (typing ["1"; "2"; "3"]))).
  vm_compute. reflexivity.
Defined.














(** A negative count that leaves no question makes the session fail with
    [ZeroDivisionError], after it printed a score of 0 out of 0 and a
    percentage of 0.0; nothing is asked or saved. *)
Theorem negative_count_divides_by_zero (windows : bool) (entropy : nat -> nat)
    (now : string) (QUESTIONS : list Question) (usr wanted : string) (timed : bool)
    (t : nat) (n : Z) (st : state) :
  List.filter (matches_difficulty wanted) QUESTIONS <> [] ->
  (n <= - len (List.filter (matches_difficulty wanted) QUESTIONS))%Z ->
  exists st',
    run_quiz windows entropy now QUESTIONS usr wanted timed t (Some n) st
    = (Raise ZeroDivisionError, st')
    /\ stdout st' = stdout st ++ [Starting usr 0 timed; QuizCompleted; ScoreLine 0 0;
                                  PercentageLine (float_of_int 0)]
    /\ scores_file st' = scores_file st
    /\ stdin st' = stdin st.
Proof.
  intros Hne Hn. unfold run_quiz, play_quiz.
  destruct (List.filter _ QUESTIONS) as [|q0 pool0] eqn:F; [contradiction|].
  unfold bind at 1 2. unfold shuffle.
  pose proof (shuffle_from_perm entropy (length (q0 :: pool0) - 1) (q0 :: pool0) (draws st))
    as P.
  destruct (shuffle_from _ _ _ _) as [x' d]. simpl in P.
  apply Permutation_length in P.
  assert (slice_to n x' = []) as S.
  { unfold slice_to, len in *. simpl in *. destruct (Z.ltb_spec n 0); [|lia].
    replace (length x' - Z.to_nat (- n)) with 0 by lia. reflexivity. }
  destruct (Z.eqb_spec n 0) as [->|_]; [unfold len in Hn; simpl in Hn; lia|].
  rewrite S. eexists. split; [reflexivity|]. simpl.
  rewrite <- !app_assoc. repeat split.
Qed.

Lemma negative_count_divides_by_zero_witness :
  exists st',
    sample_run Writable "hard" false (Some (-2)%Z) (typing ["1"])
    = (Raise ZeroDivisionError, st')
    /\ stdout st' = stdout (fresh_state Writable (typing ["1"])) ++
                    [Starting "ann" 0 false; QuizCompleted; ScoreLine 0 0;
                     PercentageLine (float_of_int 0)]
    /\ scores_file st' = scores_file (fresh_state Writable (typing ["1"]))
    /\ stdin st' = stdin (fresh_state Writable (typing ["1"])).
Proof.
  apply (negative_count_divides_by_zero false (fun n => n) "2026-01-01T00:00:00"
           sample_QUESTIONS "ann" "hard" false 15 (-2)%Z
           (fresh_state Writable (typing ["1"]))).
  - discriminate.
  - vm_compute. discriminate.
Defined.

(** ** Sessions that run to their end *)


















(** ** Timed mode without a deadline *)

Lemma bind_ext {A B : Type} (m m' : M A) (k k' : A -> M B) :
  (forall st, m st = m' st) -> (forall a st, k a st = k' a st) ->
  forall st, bind m k st = bind m' k' st.
Proof.
  intros Hm Hk st. unfold bind. rewrite Hm.
  destruct (m' st) as [[a|e] s1]; [apply Hk|reflexivity].
Qed.

Lemma get_answer_no_deadline (windows : bool) (t t' : nat) (n : Z) (st : state) :
  windows = true \/ t = 0 ->
  get_answer windows true t n st = get_answer windows false t' n st.
Proof.
  intros H. destruct st as [h f d kb n0 o].
  unfold get_answer, timed_input, input, bind, print, ret.
  destruct H as [->| ->].
  - destruct kb; reflexivity.
  - destruct windows; destruct kb; reflexivity.
Qed.

(** On Windows, and anywhere with a timeout of zero seconds, the
    questions of a timed session are asked, read and scored exactly as
    those of an untimed one: no answer times out, however late. *)
Theorem no_deadline_is_untimed (windows : bool) (entropy : nat -> nat) (t t' : nat)
    (tot : Z) (pool : list Question) (i sc : Z) (ds : list Detail) (st : state) :
  windows = true \/ t = 0 ->
  quiz_loop windows entropy true t tot i pool sc ds st
  = quiz_loop windows entropy false t' tot i pool sc ds st.
Proof.
  intros H. revert i sc ds st.
  induction pool as [|qu pool IH]; intros i sc ds st; [reflexivity|].
  cbn [quiz_loop].
  apply bind_ext; [reflexivity|intros l s1].
  apply bind_ext; [reflexivity|intros u2 s2].
  apply bind_ext; [reflexivity|intros chs s3].
  apply bind_ext; [reflexivity|intros u4 s4].
  apply bind_ext; [reflexivity|intros u5 s5].
  apply bind_ext; [intros s; apply get_answer_no_deadline; exact H|intros uc s6].
  apply bind_ext; [reflexivity|intros r s7].
  apply bind_ext; [reflexivity|intros sd s8].
  apply IH.
Qed.

Lemma no_deadline_is_untimed_witness :
  quiz_loop false (fun n => n) true 0 1 1 (take 1 sample_QUESTIONS) 0 []
    (fresh_state Writable [ {| text := "1"; delay := 3600 |} ])
  = quiz_loop false (fun n => n) false 15 1 1 (take 1 sample_QUESTIONS) 0 []
      (fresh_state Writable [ {| text := "1"; delay := 3600 |} ]).
Proof.
  apply (no_deadline_is_untimed false (fun n => n) 0 15). right. reflexivity.
Defined.

(** ** More on the leaderboard *)

(** With a count that is not negative, the leaderboard of a store that
    holds records prints a header whose number is the number of rows that
    follow it, and numbers the rows from 1; nothing else changes. *)
Theorem leaderboard_header_counts_rows (top_n : Z) (st : state) (e : Entry)
    (data : list Entry) :
  (0 <= top_n)%Z ->
  scores_file st = Stored (e :: data) ->
  exists rows,
    show_leaderboard top_n st
    = (Ok tt,
       set_stdout
         (stdout st ++
          LeaderboardHeader (len rows)
          :: map (fun '(i, r) => LeaderboardRow i r (timestamp r)) (enumerate 1 rows))
         st)
    /\ rows = top_rows top_n (e :: data)
    /\ len rows = Z.min top_n (len (e :: data))
    /\ map fst (enumerate 1 rows) = map Z.of_nat (seq 1 (length rows)).
Proof.
  intros Hn Hs. exists (top_rows top_n (e :: data)).
  assert (length (sorted_reverse percentage PrimFloat.ltb (e :: data))
          = length (e :: data)) as L.
  { unfold sorted_reverse. rewrite length_rev.
    rewrite (Permutation_length (stable_sort_perm percentage PrimFloat.ltb _)).
    apply length_rev. }
  assert (len (top_rows top_n (e :: data)) = Z.min top_n (len (e :: data))) as Hlen.
  { unfold top_rows. rewrite slice_to_len. destruct (Z.ltb_spec top_n 0); [lia|].
    unfold len. rewrite L. reflexivity. }
  split; [|split; [reflexivity|split; [exact Hlen|]]].
  - rewrite (show_leaderboard_prints top_n st e data Hs), Hlen. reflexivity.
  - generalize (top_rows top_n (e :: data)). intros rows.
    change 1%Z with (Z.of_nat 1). generalize 1.
    induction rows as [|r rows IH]; intros k; [reflexivity|].
    simpl. f_equal. replace (Z.of_nat k + 1)%Z with (Z.of_nat (S k)) by lia. apply IH.
Qed.

Lemma leaderboard_header_counts_rows_witness :
  exists rows,
    show_leaderboard 5 (stored_state example_board)
    = (Ok tt,
       set_stdout
         (stdout (stored_state example_board) ++
          LeaderboardHeader (len rows)
          :: map (fun '(i, r) => LeaderboardRow i r (timestamp r)) (enumerate 1 rows))
         (stored_state example_board))
    /\ rows = top_rows 5 example_board
    /\ len rows = Z.min 5 (len example_board)
    /\ map fst (enumerate 1 rows) = map Z.of_nat (seq 1 (length rows)).
Proof.
  apply (leaderboard_header_counts_rows 5 (stored_state example_board)
           (sample_entry "first" 50 100)
           [sample_entry "second" 90 100; sample_entry "third" 90 100;
            sample_entry "fourth" 30 100]).
  - lia.
  - reflexivity.
Defined.

(** On a leaderboard without NaN percentages that shows at least one row,
    the first row is a record of the store with the largest percentage
    of all, and of the records with that percentage it is the one saved
    first. *)
Theorem leaderboard_best_first (top_n : Z) (e0 : Entry) (data : list Entry) :
  Forall (fun e => ordered (percentage e)) (e0 :: data) ->
  (1 <= top_n)%Z ->
  exists best rest,
    top_rows top_n (e0 :: data) = best :: rest
    /\ In best (e0 :: data)
    /\ Forall (fun e => PrimFloat.leb (percentage e) (percentage best) = true) (e0 :: data)
    /\ head (List.filter (tied percentage PrimFloat.ltb (percentage best)) (e0 :: data))
       = Some best.
Proof.
  intros Hok Hn.
  destruct (sorted_reverse_spec percentage PrimFloat.ltb ordered
              float_lt_irrefl float_lt_trans float_lt_neg_trans (e0 :: data) Hok)
    as (Hperm & Hdesc & Hstable).
  unfold top_rows. rewrite (slice_to_take top_n) by lia.
  destruct (sorted_reverse percentage PrimFloat.ltb (e0 :: data)) as [|best ranked] eqn:S.
  { apply Permutation_length in Hperm. discriminate Hperm. }
  exists best, (take (Z.to_nat top_n - 1) ranked).
  assert (Forall (fun e => ordered (percentage e)) (best :: ranked)) as Hok'
    by (rewrite Hperm; exact Hok).
  pose proof (Forall_inv Hok') as Hbest.
  split; [|split; [|split]].
  - destruct (Z.to_nat top_n) as [|k] eqn:K; [lia|]. simpl. rewrite Nat.sub_0_r. reflexivity.
  - apply list_elem_of_In. rewrite <- Hperm. left.
  - rewrite <- Hperm. unfold descending in Hdesc.
    apply StronglySorted_inv in Hdesc. destruct Hdesc as [_ Hd].
    constructor.
    + apply float_not_lt_ge; [exact Hbest|exact Hbest|apply float_lt_irrefl; exact Hbest].
    + apply Forall_cons in Hok'. destruct Hok' as [_ Hok'].
      rewrite Forall_forall in *. intros x Hx.
      apply float_not_lt_ge; [exact Hbest|apply Hok'; exact Hx|apply Hd; exact Hx].
  - rewrite <- (Hstable (percentage best) Hbest). cbn [List.filter].
    unfold tied at 1. rewrite (float_lt_irrefl _ Hbest). reflexivity.
Qed.

Lemma leaderboard_best_first_witness :
  exists best rest,
    top_rows 1 example_board = best :: rest
    /\ In best example_board
    /\ Forall (fun e => PrimFloat.leb (percentage e) (percentage best) = true) example_board
    /\ head (List.filter (tied percentage PrimFloat.ltb (percentage best)) example_board)
       = Some best.
Proof.
  apply (leaderboard_best_first 1 (sample_entry "first" 50 100)
           [sample_entry "second" 90 100; sample_entry "third" 90 100;
            sample_entry "fourth" 30 100]).
  - repeat constructor.
  - lia.
Defined.

(** ** Records accumulate *)

(** Records saved one after the other, on a disk that takes the writes,
    are loaded back after the records the store held, in the order
    saved; nothing but the score file changes. *)
Theorem saves_accumulate (es : list Entry) (st : state) (old : list Entry) :
  disk st = Writable ->
  fst (load_scores st) = Ok old ->
  exists st',
    save_each es st = (Ok tt, st')
    /\ fst (load_scores st') = Ok (old ++ es)
    /\ st' = set_scores_file (scores_file st') st.
Proof.
  revert st old. induction es as [|e es IH]; intros st old Hd Hold.
  - exists st. rewrite app_nil_r. split; [reflexivity|]. split; [exact Hold|].
    destruct st; reflexivity.
  - cbn [save_each]. unfold bind.
    assert (save_score e st = (Ok tt, set_scores_file (Stored (old ++ [e])) st)) as S.
    { unfold save_score, bind. unfold load_scores in *.
      destruct (scores_file st); simpl in *; rewrite Hd; inversion Hold; reflexivity. }
    rewrite S.
    destruct (IH (set_scores_file (Stored (old ++ [e])) st) (old ++ [e]) Hd eq_refl)
      as (st' & Hsave & Hload & Hst).
    exists st'. split; [exact Hsave|]. split.
    + rewrite Hload, <- app_assoc. reflexivity.
    + rewrite Hst at 1. destruct st; reflexivity.
Qed.

Lemma saves_accumulate_witness :
  exists st',
    save_each [sample_entry "bob" 2 2; sample_entry "cy" 0 3]
      (stored_state [sample_entry "ann" 1 2]) = (Ok tt, st')
    /\ fst (load_scores st')
       = Ok ([sample_entry "ann" 1 2] ++ [sample_entry "bob" 2 2; sample_entry "cy" 0 3])
    /\ st' = set_scores_file (scores_file st') (stored_state [sample_entry "ann" 1 2]).
Proof.
  apply (saves_accumulate [sample_entry "bob" 2 2; sample_entry "cy" 0 3]
           (stored_state [sample_entry "ann" 1 2]) [sample_entry "ann" 1 2]);
    reflexivity.
Defined.

(** ** The launcher *)

Lemma gbind_ok {A B : Type} (m : G A) (k : A -> G B) (c c' : console) (b : B) :
  gbind m k c = (Ok b, c') ->
  exists a c1, m c = (Ok a, c1) /\ k a c1 = (Ok b, c').
Proof.
  unfold gbind. destruct (m c) as [[a|e] c1]; intros H; [|discriminate].
  exists a, c1. split; [reflexivity|exact H].
Qed.


Tactic Notation "gbind_inv" hyp(H) "as" ident(a) ident(s) ident(H1) :=
  apply gbind_ok in H; destruct H as (a & s & H1 & H).

Lemma digit_value_nonneg (c : ascii) :
  PyStr.isdecimal_char c = true -> (0 <= PyStr.digit_value c)%Z.
Proof.
  unfold PyStr.isdecimal_char, PyStr.between, PyStr.digit_value.
  intros H. apply andb_true_iff in H. destruct H as [H _].
  apply N.leb_le in H. lia.
Qed.

Lemma decimal_value_nonneg (s : string) :
  forall acc, (0 <= acc)%Z -> PyStr.all_chars PyStr.isdecimal_char s = true ->
              (0 <= PyStr.decimal_value acc s)%Z.
Proof.
  induction s as [|c s IH]; intros acc Hacc H; simpl; [exact Hacc|].
  simpl in H. apply andb_true_iff in H. destruct H as [Hc Hs].
  apply IH; [|exact Hs]. pose proof (digit_value_nonneg c Hc). lia.
Qed.

(** [int] of a digit string is never negative. *)
Lemma int_nonneg (s : string) (v : Z) : PyStr.int s = Some v -> (0 <= v)%Z.
Proof.
  unfold PyStr.int.
  destruct (PyStr.truthy s && PyStr.all_chars PyStr.isdecimal_char s) eqn:E;
    [|discriminate].
  intros H. inversion H. apply andb_true_iff in E. destruct E as [_ E].
  apply decimal_value_nonneg; [lia|exact E].
Qed.


(** The locals [main] ends up with, from the lines typed. *)
Lemma read_preferences_inv (windows : bool) (QUESTIONS : list Question)
    (c c' : console) (p : preferences) :
  read_preferences windows QUESTIONS c = (Ok p, c') ->
  exists name diff_choice tm,
    p_user p = (if PyStr.truthy (PyStr.strip name) then PyStr.strip name else "Anonymous")
    /\ p_difficulty p = diff_map (PyStr.strip diff_choice)
    /\ p_timed p = String.eqb (PyStr.lower (PyStr.strip tm)) "y"
    /\ (p_per_q_time p = 15%Z
        \/ (p_timed p = true /\ windows = false
            /\ exists v, (0 <= v)%Z /\ p_per_q_time p = Z.max 3 v))
    /\ (p_num_q p = None
        \/ exists v, (0 <= v)%Z
             /\ p_num_q p
                = Some (Z.min v (len (List.filter (matches_difficulty (p_difficulty p))
                                        QUESTIONS)))).
Proof.
  unfold read_preferences. intros H.
  gbind_inv H as u0 c0 H0. gbind_inv H as name c1 H1. cbv zeta in H.
  gbind_inv H as u2 c2 H2. gbind_inv H as diff_choice c3 H3.
  gbind_inv H as tm c4 H4. gbind_inv H as t c5 H5.
  gbind_inv H as nq c6 H6. gbind_inv H as num_q c7 H7.
  inversion H; subst p c'; clear H. simpl.
  exists name, diff_choice, tm. repeat split.
  - destruct (String.eqb (PyStr.lower (PyStr.strip tm)) "y"); simpl in H5.
    + destruct windows; simpl in H5.
      * gbind_inv H5 as u c8 H8. inversion H5. left. reflexivity.
      * gbind_inv H5 as tval c8 H8.
        destruct (PyStr.isdigit (PyStr.strip tval)); [|inversion H5; left; reflexivity].
        destruct (PyStr.int (PyStr.strip tval)) as [v|] eqn:I; [|discriminate H5].
        inversion H5. right. repeat split. exists v. split; [|reflexivity].
        exact (int_nonneg _ _ I).
    + inversion H5. left. reflexivity.
  - destruct (PyStr.isdigit (PyStr.strip nq)); [|inversion H7; left; reflexivity].
    destruct (PyStr.int (PyStr.strip nq)) as [v|] eqn:I; [|discriminate H7].
    inversion H7. right. exists v. split; [exact (int_nonneg _ _ I)|reflexivity].
Qed.

(** Whatever is typed, the preferences that [main] hands to the session
    are sound: a name that is not empty, one of the four difficulties, a
    timeout of at least 3 seconds (15 unless timed mode was chosen off
    Windows), and no count or a count between 0 and the number of
    questions of the difficulty. *)
Theorem preferences_are_sound (windows : bool) (QUESTIONS : list Question)
    (c c' : console) (p : preferences) :
  read_preferences windows QUESTIONS c = (Ok p, c') ->
  PyStr.truthy (p_user p) = true
  /\ In (p_difficulty p) ["easy"; "medium"; "hard"; "all"]
  /\ (3 <= p_per_q_time p)%Z
  /\ (windows = true \/ p_timed p = false -> p_per_q_time p = 15%Z)
  /\ match p_num_q p with
     | None => True
     | Some n =>
         (0 <= n <= len (List.filter (matches_difficulty (p_difficulty p)) QUESTIONS))%Z
     end.
Proof.
  intros H. apply read_preferences_inv in H.
  destruct H as (name & dc & tm & Hu & Hdiff & Htm & Ht & Hn).
  split; [|split; [|split; [|split]]].
  - rewrite Hu. destruct (PyStr.truthy (PyStr.strip name)) eqn:E; [exact E|reflexivity].
  - rewrite Hdiff. unfold diff_map.
    repeat match goal with |- context [String.eqb ?a ?b] => destruct (String.eqb a b) end;
      simpl; auto.
  - destruct Ht as [->|(_ & _ & v & _ & ->)]; lia.
  - intros Hw. destruct Ht as [Ht|(Ht1 & Ht2 & _)]; [exact Ht|].
    destruct Hw; congruence.
  - destruct Hn as [->|(v & Hv & ->)]; [exact I|]. unfold len. lia.
Qed.

Lemma preferences_are_sound_witness :
  exists p c',
    read_preferences false sample_QUESTIONS
      {| world := fresh_state Writable (typing [" "; "3"; "Y"; "1"; "7"]); screen := [] |}
    = (Ok p, c')
    /\ (p_user p, p_difficulty p, p_timed p, p_per_q_time p, p_num_q p)
       = ("Anonymous", "hard", true, 3%Z, Some 2%Z)
    /\ (PyStr.truthy (p_user p) = true
        /\ In (p_difficulty p) ["easy"; "medium"; "hard"; "all"]
        /\ (3 <= p_per_q_time p)%Z
        /\ (false = true \/ p_timed p = false -> p_per_q_time p = 15%Z)
        /\ match p_num_q p with
           | None => True
           | Some n =>
               (0 <= n <= len (List.filter (matches_difficulty (p_difficulty p))
                                 sample_QUESTIONS))%Z
           end).
Proof.
  eexists. eexists. split; [vm_compute; reflexivity|]. split; [reflexivity|].
  eapply (preferences_are_sound false sample_QUESTIONS
            {| world := fresh_state Writable (typing [" "; "3"; "Y"; "1"; "7"]);
               screen := [] |}).
  vm_compute. reflexivity.
Defined.








(** ** What is shown for a question *)



(** ** Late answers *)


